(** * kmod-modinfo: the metadata aggregation and rendering engine

    A shallow embedding of [tools/kmod-modinfo.c]: [add_param], [modinfo_do],
    [modinfo_path_do], [modinfo_alias_do], [help] and [main] (its option
    loop, the directory it builds and its module loop), followed by the
    properties of the report they print.

    Conventions of the embedding.
    - A C string is a [string]; [strcmp (a, b) == 0] is [String.eqb a b].
      A pointer into a string is the text from that position on.
    - [int] lengths are kept in [Z]; they are lengths of modinfo strings and
      stay below [INT_MAX].
    - [stdout] and [stderr] are two byte streams of the [world]; [printf]
      appends to the first and the [LOG] macro to the second.
    - libkmod and libc are outside this file of the repository: a module is
      the record of what libkmod answers about it, a context is the record of
      what the lookups answer, and [malloc] and [strerror] are oracles. Each
      libkmod call that resolves a module or retrieves its metadata is
      noted in the [calls] trace of the world. [getopt_long] is outside too:
      its answers are an input, and what it writes itself is not modelled.
    - The linked list of [struct param] is a [list] with the head first;
      [free], the unref calls and [kmod_module_info_free_list] change
      nothing that the world records. *)

From Stdlib Require Import String Ascii List ZArith Lia Bool.
Import ListNotations.

Local Open Scope string_scope.
Local Open Scope Z_scope.

(** ** Characters and strings of the C side *)

Definition NUL : ascii := ascii_of_nat 0.
Definition newline : ascii := ascii_of_nat 10.
Definition dquote : ascii := ascii_of_nat 34.
Definition colon_char : ascii := ascii_of_nat 58.

Definition str1 (c : ascii) : string := String c EmptyString.

(** [strlen (s)] *)
Definition strlen (s : string) : Z := Z.of_nat (String.length s).

(** [strcmp (a, b) == 0] *)
Definition streq (a b : string) : bool := String.eqb a b.

(** [strchr (s, c)] for a character [c] other than NUL: the offset of the
    first [c] in [s], [None] for the NULL pointer. *)
Fixpoint strchr (s : string) (c : ascii) : option nat :=
  match s with
  | EmptyString => None
  | String a s' =>
      if Ascii.eqb a c then Some 0%nat
      else match strchr s' c with
           | Some i => Some (S i)
           | None => None
           end
  end.

(** The first [n] bytes of [s]. *)
Fixpoint take (n : nat) (s : string) : string :=
  match n, s with
  | O, _ => EmptyString
  | S _, EmptyString => EmptyString
  | S n', String a s' => String a (take n' s')
  end.

(** The pointer [s + n]. *)
Fixpoint advance (n : nat) (s : string) : string :=
  match n, s with
  | O, _ => s
  | S _, EmptyString => EmptyString
  | S n', String _ s' => advance n' s'
  end.

(** [memcmp (a, b, n) == 0] *)
Definition memcmp_eq (a b : string) (n : Z) : bool :=
  String.eqb (take (Z.to_nat n) a) (take (Z.to_nat n) b).

Fixpoint spaces (n : nat) : string :=
  match n with
  | O => EmptyString
  | S n' => String " " (spaces n')
  end.

(** printf's [%-Ns]: [s] left-justified in a field of [w] columns. *)
Definition pad_right (w : nat) (s : string) : string :=
  s ++ spaces (w - String.length s).

(** printf's [%-*s] with the width argument [w]; a negative width argument
    is taken as the [-] flag followed by the positive width. *)
Definition pad_right_star (w : Z) (s : string) : string :=
  pad_right (Z.abs_nat w) s.

(** printf's [%.*s] with the precision argument [n]; a negative precision
    is taken as if the precision were omitted. *)
Definition prec_star (n : Z) (s : string) : string :=
  if n <? 0 then s else take (Z.to_nat n) s.

Fixpoint concat_str (l : list string) : string :=
  match l with
  | [] => EmptyString
  | s :: l' => s ++ concat_str l'
  end.

(** ** The world: output streams, allocator and libkmod *)

(** What a libkmod call answers: a return value [>= 0] together with its
    out-parameter, or a negated errno. *)
Inductive kmod_result (A : Type) : Type :=
| kmod_ok (r : N) (v : A)
| kmod_err (errno : positive).
Arguments kmod_ok {A} r v.
Arguments kmod_err {A} errno.

Definition ret_code {A : Type} (r : kmod_result A) : Z :=
  match r with
  | kmod_ok r _ => Z.of_N r
  | kmod_err e => Z.neg e
  end.

(** [struct kmod_module], as far as modinfo looks at it. *)
Record kmod_module : Type := mkModule {
  kmod_module_get_path : string;
  kmod_module_get_name : string;
  kmod_module_get_info : kmod_result (list (string * string))
}.

(** The libkmod calls that the [calls] trace of the world records. *)
Inductive event : Type :=
| Ev_new_from_path (path : string)
| Ev_new_from_lookup (alias : string)
| Ev_get_info (kmod : kmod_module).

Record world : Type := mkWorld {
  stdout : string;
  stderr : string;
  mallocs : nat;
  calls : list event
}.

Definition world0 : world := mkWorld EmptyString EmptyString 0 [].

(** [struct kmod_ctx] and the file system, as far as modinfo looks at them. *)
Record kmod_ctx : Type := mkCtx {
  stat_is_reg : string -> bool;
  kmod_module_new_from_path : string -> kmod_result kmod_module;
  kmod_module_new_from_lookup : string -> kmod_result (list kmod_module)
}.

(** libc oracles: [strerror], and whether the n-th [malloc] of the run
    returns memory. *)
Record libc : Type := mkLibc {
  strerror : Z -> string;
  malloc_ok : nat -> bool
}.

(** The two globals set by the option parser of [main]. *)
Record config : Type := mkConfig {
  separator : ascii;
  field : option string
}.

(** ** A state monad over the world *)

Definition M (A : Type) : Type := world -> A * world.

Definition ret {A : Type} (a : A) : M A := fun w => (a, w).

Definition bind {A B : Type} (m : M A) (f : A -> M B) : M B :=
  fun w => let (a, w') := m w in f a w'.

Notation "x <- c1 ;; c2" := (bind c1 (fun x => c2))
  (at level 61, c1 at next level, right associativity).
Notation "c1 ;; c2" := (bind c1 (fun _ => c2))
  (at level 61, right associativity).

Definition printf (s : string) : M unit :=
  fun w => (tt, mkWorld (stdout w ++ s) (stderr w) (mallocs w) (calls w)).

(** [#define LOG(fmt, ...) fprintf(stderr, "ERROR: "fmt, ##__VA_ARGS__)] *)
Definition LOG (s : string) : M unit :=
  fun w => (tt, mkWorld (stdout w) (stderr w ++ "ERROR: " ++ s) (mallocs w) (calls w)).

Definition malloc (L : libc) : M bool :=
  fun w => (malloc_ok L (mallocs w),
            mkWorld (stdout w) (stderr w) (S (mallocs w)) (calls w)).

Definition call (e : event) : M unit :=
  fun w => (tt, mkWorld (stdout w) (stderr w) (mallocs w) (calls w ++ [e])).

(** ** [struct param] and [add_param] *)

(** The [next] pointer is the tail of the list that holds the entry;
    a NULL [param] or [type] is [None]. *)
Record struct_param : Type := mkParam {
  p_name : string;
  p_param : option string;
  p_type : option string;
  p_namelen : Z;
  p_paramlen : Z;
  p_typelen : Z
}.

(** The test of the search loop of [add_param]. *)
Definition param_matches (it : struct_param) (name : string) (namelen : Z) : bool :=
  (p_namelen it =? namelen) && memcmp_eq (p_name it) name namelen.

(** The search loop of [add_param]: the position of the first entry that
    matches, [None] when [it] runs to NULL. *)
Fixpoint find_param (name : string) (namelen : Z) (l : list struct_param) : option nat :=
  match l with
  | [] => None
  | it :: rest =>
      if param_matches it name namelen then Some 0%nat
      else match find_param name namelen rest with
           | Some i => Some (S i)
           | None => None
           end
  end.

(** The two conditional stores at the end of [add_param]. *)
Definition store_fields (param : option string) (paramlen : Z)
    (type : option string) (typelen : Z) (it : struct_param) : struct_param :=
  let it1 :=
    match param with
    | Some _ => mkParam (p_name it) param (p_type it) (p_namelen it) paramlen (p_typelen it)
    | None => it
    end in
  match type with
  | Some _ => mkParam (p_name it1) (p_param it1) type (p_namelen it1) (p_paramlen it1) typelen
  | None => it1
  end.

(** Mutation of the entry at position [i] of the linked list. *)
Fixpoint alter_at (f : struct_param -> struct_param) (i : nat) (l : list struct_param) : list struct_param :=
  match l, i with
  | [], _ => []
  | it :: rest, O => f it :: rest
  | it :: rest, S i' => it :: alter_at f i' rest
  end.

(** [add_param]: the returned pointer is the entry it points to, and the
    list behind [struct param **list] (here [params], the caller's variable)
    is returned next to it. *)
Definition add_param (L : libc) (name : string) (namelen : Z)
    (param : option string) (paramlen : Z)
    (type : option string) (typelen : Z)
    (params : list struct_param) : M (option struct_param * list struct_param) :=
  match find_param name namelen params with
  | Some i =>
      let params' := alter_at (store_fields param paramlen type typelen) i params in
      ret (nth_error params' i, params')
  | None =>
      ok <- malloc L ;;
      if ok then
        let it := store_fields param paramlen type typelen
                    (mkParam name None None namelen 0 0) in
        ret (Some it, it :: params)
      else ret (None, params)
  end.

(** ** [modinfo_do] *)

(** How the [kmod_list_foreach] loop of [modinfo_do] is left: by running off
    the list, or by the [goto end] of the allocation failure. *)
Inductive loop_exit : Type := loop_done | goto_end.

(** A [%.*s] argument: the text behind the pointer. An entry always holds
    the field that is printed, the NULL case prints nothing. *)
Definition text_of (p : option string) : string :=
  match p with
  | Some s => s
  | None => EmptyString
  end.

(** The body of the [kmod_list_foreach] loop of [modinfo_do], and the loop. *)
Fixpoint info_foreach (L : libc) (cfg : config) (l : list (string * string))
    (params : list struct_param) : M (loop_exit * list struct_param) :=
  match l with
  | [] => ret (loop_done, params)
  | (key, value) :: l' =>
      match field cfg with
      | Some f =>
          if negb (streq f key) then info_foreach L cfg l' params
          else
            (* filtered output contains no key, just value *)
            printf (value ++ str1 (separator cfg)) ;;
            info_foreach L cfg l' params
      | None =>
          if streq key "parm" || streq key "parmtype" then
            match strchr value colon_char with
            | None =>
                LOG ("Found invalid " ++ str1 dquote ++ key ++ "=" ++ value
                       ++ str1 dquote ++ ": missing ':'" ++ str1 newline) ;;
                info_foreach L cfg l' params
            | Some colon =>
                let name := value in
                let namelen := Z.of_nat colon in
                let '(param, paramlen, type, typelen) :=
                  if streq key "param" then
                    let param := advance (S colon) value in
                    (Some param, strlen param, None, 0)
                  else
                    let type := advance (S colon) value in
                    (None, 0, Some type, strlen type) in
                r <- add_param L name namelen param paramlen type typelen params ;;
                match fst r with
                | None =>
                    LOG ("Out of memory!" ++ str1 newline) ;;
                    ret (goto_end, snd r)
                | Some _ => info_foreach L cfg l' (snd r)
                end
            end
          else if Ascii.eqb (separator cfg) NUL then
            printf (key ++ "=" ++ value ++ str1 (separator cfg)) ;;
            info_foreach L cfg l' params
          else
            let keylen := strlen key in
            printf (key ++ ":" ++ pad_right_star (15 - keylen) EmptyString
                      ++ value ++ str1 (separator cfg)) ;;
            info_foreach L cfg l' params
      end
  end.

(** One turn of the [while (params != NULL)] loop that prints the table. *)
Definition print_param (cfg : config) (p : struct_param) : M unit :=
  match p_param p with
  | None =>
      printf (pad_right 16 "parm:"
                ++ prec_star (p_namelen p) (p_name p) ++ ":"
                ++ prec_star (p_typelen p) (text_of (p_type p))
                ++ str1 (separator cfg))
  | Some param =>
      match p_type p with
      | Some type =>
          printf (pad_right 16 "parm:"
                    ++ prec_star (p_namelen p) (p_name p)
                    ++ prec_star (p_paramlen p) param
                    ++ " (" ++ prec_star (p_typelen p) type ++ ")"
                    ++ str1 (separator cfg))
      | None =>
          printf (pad_right 16 "parm:"
                    ++ prec_star (p_namelen p) (p_name p)
                    ++ prec_star (p_paramlen p) param
                    ++ str1 (separator cfg))
      end
  end.

Fixpoint print_params (cfg : config) (params : list struct_param) : M unit :=
  match params with
  | [] => ret tt
  | p :: next => print_param cfg p ;; print_params cfg next
  end.

(** [modinfo_do] from the call of [kmod_module_get_info] on. *)
Definition modinfo_do_info (L : libc) (cfg : config) (kmod : kmod_module) : M Z :=
  call (Ev_get_info kmod) ;;
  match kmod_module_get_info kmod with
  | kmod_err errno =>
      let err := Z.neg errno in
      LOG ("Could not get modinfo from '" ++ kmod_module_get_name kmod ++ "': "
             ++ strerror L (- err) ++ str1 newline) ;;
      ret err
  | kmod_ok r list =>
      let err := Z.of_N r in
      x <- info_foreach L cfg list [] ;;
      match fst x, field cfg with
      | loop_done, None => print_params cfg (snd x) ;; ret err
      | loop_done, Some _ => ret err
      | goto_end, _ => ret err
      end
  end.

Definition modinfo_do (L : libc) (cfg : config) (kmod : kmod_module) : M Z :=
  match field cfg with
  | Some f =>
      if streq f "filename" then
        printf (kmod_module_get_path kmod ++ str1 (separator cfg)) ;;
        ret 0
      else modinfo_do_info L cfg kmod
  | None =>
      printf (pad_right 16 "filename:" ++ kmod_module_get_path kmod
                ++ str1 (separator cfg)) ;;
      modinfo_do_info L cfg kmod
  end.

(** ** [modinfo_path_do], [modinfo_alias_do] and the module loop of [main] *)

Definition modinfo_path_do (L : libc) (cfg : config) (ctx : kmod_ctx)
    (path : string) : M Z :=
  call (Ev_new_from_path path) ;;
  match kmod_module_new_from_path ctx path with
  | kmod_err errno =>
      LOG ("Module file " ++ path ++ " not found." ++ str1 newline) ;;
      ret (Z.neg errno)
  | kmod_ok _ kmod => modinfo_do L cfg kmod
  end.

(** The [kmod_list_foreach] loop of [modinfo_alias_do]. *)
Fixpoint alias_foreach (L : libc) (cfg : config) (l : list kmod_module)
    (err : Z) : M Z :=
  match l with
  | [] => ret err
  | kmod :: l' =>
      r <- modinfo_do L cfg kmod ;;
      alias_foreach L cfg l' (if r <? 0 then r else err)
  end.

Definition modinfo_alias_do (L : libc) (cfg : config) (ctx : kmod_ctx)
    (alias : string) : M Z :=
  call (Ev_new_from_lookup alias) ;;
  match kmod_module_new_from_lookup ctx alias with
  | kmod_err errno =>
      LOG ("Module alias " ++ alias ++ " not found." ++ str1 newline) ;;
      ret (Z.neg errno)
  | kmod_ok r list => alias_foreach L cfg list (Z.of_N r)
  end.

Definition EXIT_SUCCESS : Z := 0.
Definition EXIT_FAILURE : Z := 1.

(** The [for (i = optind; i < argc; i++)] loop of [main] over the remaining
    arguments. *)
Fixpoint main_loop (L : libc) (cfg : config) (ctx : kmod_ctx)
    (args : list string) (err : Z) : M Z :=
  match args with
  | [] => ret err
  | name :: args' =>
      r <- (if stat_is_reg ctx name then modinfo_path_do L cfg ctx name
            else modinfo_alias_do L cfg ctx name) ;;
      main_loop L cfg ctx args' (if r <? 0 then r else err)
  end.

(** [main] once the options are parsed into [cfg] and the context is
    created: the module loop and the exit status. *)
Definition main (L : libc) (cfg : config) (ctx : kmod_ctx)
    (args : list string) : M Z :=
  err <- main_loop L cfg ctx args 0 ;;
  ret (if err >=? 0 then EXIT_SUCCESS else EXIT_FAILURE).

(** ** The options and the whole of [main] *)

(** [fprintf (stderr, ...)] and [fputs (..., stderr)] outside the [LOG]
    macro, and [puts]. *)
Definition eprintf (s : string) : M unit :=
  fun w => (tt, mkWorld (stdout w) (stderr w ++ s) (mallocs w) (calls w)).

Definition puts (s : string) : M unit := printf (s ++ str1 newline).

Definition tab : ascii := ascii_of_nat 9.

(** [help]: the usage text, written to [stderr]. *)
Definition help (progname : string) : M unit :=
  eprintf
    ("Usage:" ++ str1 newline
     ++ str1 tab ++ progname ++ " [options] filename [args]" ++ str1 newline
     ++ "Options:" ++ str1 newline
     ++ str1 tab ++ "-a, --author                Print only 'author'" ++ str1 newline
     ++ str1 tab ++ "-d, --description           Print only 'description'" ++ str1 newline
     ++ str1 tab ++ "-l, --license               Print only 'license'" ++ str1 newline
     ++ str1 tab ++ "-p, --parameters            Print only 'parm'" ++ str1 newline
     ++ str1 tab ++ "-n, --filename              Print only 'filename'" ++ str1 newline
     ++ str1 tab ++ "-0, --null                  Use \0 instead of \n" ++ str1 newline
     ++ str1 tab ++ "-F, --field=FIELD           Print only provided FIELD" ++ str1 newline
     ++ str1 tab ++ "-k, --set-version=VERSION   Use VERSION instead of `uname -r`" ++ str1 newline
     ++ str1 tab ++ "-b, --basedir=DIR           Use DIR as filesystem root for /lib/modules" ++ str1 newline
     ++ str1 tab ++ "-V, --version               Show version" ++ str1 newline
     ++ str1 tab ++ "-h, --help                  Show this help" ++ str1 newline).

(** What is outside this file for [main]: the answers of [getopt_long]
    are an input of [parse_options]; [PATH_MAX], [uname] with its [errno],
    [kmod_new] and the [PACKAGE] and [VERSION] macros are given here.
    [uname_release] is [None] when [uname] fails. *)
Record os : Type := mkOs {
  PATH_MAX : nat;
  uname_release : option string;
  uname_errno : Z;
  kmod_new : option string -> option kmod_ctx;
  PACKAGE : string;
  VERSION : string
}.

(** The variables that the option loop of [main] sets: the globals
    [separator] and [field], and the locals [kversion] and [root]. *)
Record options : Type := mkOptions {
  opt_separator : ascii;
  opt_field : option string;
  opt_kversion : option string;
  opt_root : option string
}.

(** Their values when [main] starts. *)
Definition options0 : options := mkOptions newline None None None.

(** How the option loop is left: by [break] at the end of the options, or
    by a [return]. *)
Inductive parse_result : Type :=
| parsed (o : options)
| returned (status : Z).

(** The [for (;;)] loop of [main]. Each element of [answers] is one answer
    of [getopt_long] other than -1: the character returned and [optarg];
    the end of the list is the answer -1. *)
Fixpoint parse_options (O : os) (progname : string)
    (answers : list (ascii * string)) (o : options) : M parse_result :=
  match answers with
  | [] => ret (parsed o)
  | (c, optarg) :: answers' =>
      let continue (o' : options) := parse_options O progname answers' o' in
      if Ascii.eqb c "a" then
        continue (mkOptions (opt_separator o) (Some "author") (opt_kversion o) (opt_root o))
      else if Ascii.eqb c "d" then
        continue (mkOptions (opt_separator o) (Some "description") (opt_kversion o) (opt_root o))
      else if Ascii.eqb c "l" then
        continue (mkOptions (opt_separator o) (Some "license") (opt_kversion o) (opt_root o))
      else if Ascii.eqb c "p" then
        continue (mkOptions (opt_separator o) (Some "parm") (opt_kversion o) (opt_root o))
      else if Ascii.eqb c "n" then
        continue (mkOptions (opt_separator o) (Some "filename") (opt_kversion o) (opt_root o))
      else if Ascii.eqb c "0" then
        continue (mkOptions NUL (opt_field o) (opt_kversion o) (opt_root o))
      else if Ascii.eqb c "F" then
        continue (mkOptions (opt_separator o) (Some optarg) (opt_kversion o) (opt_root o))
      else if Ascii.eqb c "k" then
        continue (mkOptions (opt_separator o) (opt_field o) (Some optarg) (opt_root o))
      else if Ascii.eqb c "b" then
        continue (mkOptions (opt_separator o) (opt_field o) (opt_kversion o) (Some optarg))
      else if Ascii.eqb c "h" then
        help progname ;; ret (returned EXIT_SUCCESS)
      else if Ascii.eqb c "V" then
        puts (PACKAGE O ++ " version " ++ VERSION O) ;; ret (returned EXIT_SUCCESS)
      else if Ascii.eqb c "?" then
        ret (returned EXIT_FAILURE)
      else
        eprintf ("Error: unexpected getopt_long() value '" ++ str1 c ++ "'."
                   ++ str1 newline) ;;
        ret (returned EXIT_FAILURE)
  end.

(** The block of [main] that builds [dirname]: [inr] is the pointer handed
    to [kmod_new] (NULL is [None]), [inl] the status of the [return] after a
    failed [uname]. [snprintf] keeps [PATH_MAX - 1] bytes. *)
Definition make_dirname (L : libc) (O : os) (o : options) : M (Z + option string) :=
  match opt_root o, opt_kversion o with
  | None, None => ret (inr None)
  | _, _ =>
      let root := match opt_root o with Some r => r | None => EmptyString end in
      match opt_kversion o with
      | Some kversion =>
          ret (inr (Some (take (PATH_MAX O - 1) (root ++ "/lib/modules/" ++ kversion))))
      | None =>
          match uname_release O with
          | None =>
              eprintf ("Error: uname() failed: " ++ strerror L (uname_errno O)
                         ++ str1 newline) ;;
              ret (inl EXIT_FAILURE)
          | Some release =>
              ret (inr (Some (take (PATH_MAX O - 1) (root ++ "/lib/modules/" ++ release))))
          end
      end
  end.

(** [main] from its first line: [progname] is [argv[0]], [answers] what
    [getopt_long] answers and [args] the arguments from [optind] on. The
    module loop and the exit status are [main] above, run under the
    separator and field that the options set. *)
Definition main_program (L : libc) (O : os) (progname : string)
    (answers : list (ascii * string)) (args : list string) : M Z :=
  p <- parse_options O progname answers options0 ;;
  match p with
  | returned status => ret status
  | parsed o =>
      match args with
      | [] =>
          eprintf ("Error: missing module or filename." ++ str1 newline) ;;
          ret EXIT_FAILURE
      | _ :: _ =>
          d <- make_dirname L O o ;;
          match d with
          | inl status => ret status
          | inr dirname =>
              match kmod_new O dirname with
              | None =>
                  eprintf ("Error: kmod_new() failed!" ++ str1 newline) ;;
                  ret EXIT_FAILURE
              | Some ctx =>
                  main L (mkConfig (opt_separator o) (opt_field o)) ctx args
              end
          end
      end
  end.

(** ** Words of the specification *)

(** A raw pair takes part in the parameter table when its key is "parm" or
    "parmtype". *)
Definition is_parm_key (key : string) : bool :=
  streq key "parm" || streq key "parmtype".

(** The parameter name of a well-formed "parm" or "parmtype" record: the
    text before the first ':' of its value. *)
Definition record_name (kv : string * string) : option string :=
  if is_parm_key (fst kv) then
    match strchr (snd kv) colon_char with
    | Some i => Some (take i (snd kv))
    | None => None
    end
  else None.

(** The names of the well-formed parameter records, in source order. *)
Fixpoint record_names (kvs : list (string * string)) : list string :=
  match kvs with
  | [] => []
  | kv :: kvs' =>
      match record_name kv with
      | Some n => n :: record_names kvs'
      | None => record_names kvs'
      end
  end.

(** First-seen order: a name is appended to the end of the names seen so
    far when it is not among them. *)
Fixpoint first_seen_from (seen names : list string) : list string :=
  match names with
  | [] => seen
  | n :: names' =>
      if in_dec string_dec n seen then first_seen_from seen names'
      else first_seen_from (seen ++ [n]) names'
  end.

Definition first_seen (names : list string) : list string :=
  first_seen_from [] names.

(** The name of a table entry, as [%.*s] prints it. *)
Definition entry_name (p : struct_param) : string :=
  prec_star (p_namelen p) (p_name p).

(** The line of a raw pair that is not a parameter record, in default mode. *)
Definition plain_line (cfg : config) (kv : string * string) : string :=
  if Ascii.eqb (separator cfg) NUL then
    fst kv ++ "=" ++ snd kv ++ str1 (separator cfg)
  else
    fst kv ++ ":" ++ spaces (Z.abs_nat (15 - strlen (fst kv)))
      ++ snd kv ++ str1 (separator cfg).

(** The line of a table entry. *)
Definition param_line (cfg : config) (p : struct_param) : string :=
  pad_right 16 "parm:" ++
  match p_param p, p_type p with
  | None, _ =>
      entry_name p ++ ":" ++ prec_star (p_typelen p) (text_of (p_type p))
  | Some d, Some t =>
      entry_name p ++ prec_star (p_paramlen p) d
        ++ " (" ++ prec_star (p_typelen p) t ++ ")"
  | Some d, None => entry_name p ++ prec_star (p_paramlen p) d
  end ++ str1 (separator cfg).

(** The bare values of the pairs whose key is [f], each with its separator. *)
Definition filtered_lines (cfg : config) (f : string)
    (kvs : list (string * string)) : list string :=
  map (fun kv => snd kv ++ str1 (separator cfg))
      (filter (fun kv => streq f (fst kv)) kvs).

(** A "parm" or "parmtype" record whose value holds no ':'. *)
Definition is_malformed (kv : string * string) : bool :=
  is_parm_key (fst kv) &&
  match strchr (snd kv) colon_char with
  | None => true
  | Some _ => false
  end.

(** The diagnostic of a malformed record, as it reaches [stderr]. *)
Definition malformed_diag (kv : string * string) : string :=
  "ERROR: " ++ "Found invalid " ++ str1 dquote ++ fst kv ++ "=" ++ snd kv
    ++ str1 dquote ++ ": missing ':'" ++ str1 newline.

(** The lines of the pairs that are not parameter records, in source order. *)
Definition plain_lines (cfg : config) (kvs : list (string * string)) : list string :=
  map (plain_line cfg) (filter (fun kv => negb (is_parm_key (fst kv))) kvs).

(** The filter asks for the synthetic "filename" field. *)
Definition filename_filter (cfg : config) : bool :=
  match field cfg with
  | Some f => streq f "filename"
  | None => false
  end.

Definition is_ok {A : Type} (r : kmod_result A) : bool :=
  match r with
  | kmod_ok _ _ => true
  | kmod_err _ => false
  end.

(** The report of a resolved module raises no module-level error: its
    metadata is retrieved, or the "filename" filter does not ask for it. *)
Definition module_ok (cfg : config) (kmod : kmod_module) : bool :=
  filename_filter cfg || is_ok (kmod_module_get_info kmod).

(** The identifier resolves: the regular file is a module, or the lookup
    of the alias answers. *)
Definition resolves (ctx : kmod_ctx) (name : string) : bool :=
  if stat_is_reg ctx name then is_ok (kmod_module_new_from_path ctx name)
  else is_ok (kmod_module_new_from_lookup ctx name).

(** The identifier resolves and each of its modules is reported without
    a module-level error. *)
Definition identifier_ok (cfg : config) (ctx : kmod_ctx) (name : string) : bool :=
  if stat_is_reg ctx name then
    match kmod_module_new_from_path ctx name with
    | kmod_ok _ kmod => module_ok cfg kmod
    | kmod_err _ => false
    end
  else
    match kmod_module_new_from_lookup ctx name with
    | kmod_ok _ l => forallb (module_ok cfg) l
    | kmod_err _ => false
    end.

(** The libkmod calls that one module, and one identifier, give rise to. *)
Definition module_calls (cfg : config) (kmod : kmod_module) : list event :=
  if filename_filter cfg then [] else [Ev_get_info kmod].

Definition resolve_event (ctx : kmod_ctx) (name : string) : event :=
  if stat_is_reg ctx name then Ev_new_from_path name
  else Ev_new_from_lookup name.

Definition identifier_calls (cfg : config) (ctx : kmod_ctx) (name : string) : list event :=
  resolve_event ctx name ::
  (if stat_is_reg ctx name then
     match kmod_module_new_from_path ctx name with
     | kmod_ok _ kmod => module_calls cfg kmod
     | kmod_err _ => []
     end
   else
     match kmod_module_new_from_lookup ctx name with
     | kmod_ok _ l => flat_map (module_calls cfg) l
     | kmod_err _ => []
     end).

(** The first line of a default report. *)
Definition filename_line (cfg : config) (kmod : kmod_module) : string :=
  pad_right 16 "filename:" ++ kmod_module_get_path kmod ++ str1 (separator cfg).

(** Every entry of a table built by [modinfo_do] points at a value with a
    ':' and holds the offset of that ':' as its [namelen]. *)
Definition entry_inv (e : struct_param) : Prop :=
  exists i, strchr (p_name e) colon_char = Some i /\ p_namelen e = Z.of_nat i.

Definition table_inv (params : list struct_param) : Prop :=
  Forall entry_inv params.

(** The diagnostic stream holds nothing: every error kind of the
    specification is reported through [LOG], and [LOG] reports nothing
    else, so a run that starts with an empty stream met no error when the
    stream is still empty at its end. *)
Definition error_free (w : world) : Prop := stderr w = EmptyString.



(** No allocation of the run fails. *)
Definition no_oom (L : libc) : Prop := forall n, malloc_ok L n = true.

(** ** Modules and contexts of the examples *)

Definition nl : string := str1 newline.

Definition libc_ok : libc := mkLibc (fun _ => "error") (fun _ => true).
Definition cfg_default : config := mkConfig newline None.
Definition cfg_nul : config := mkConfig NUL None.
Definition cfg_field (f : string) : config := mkConfig newline (Some f).

(** The example of the specification. *)
Definition foo_info : list (string * string) :=
  [("author", "A. One");
   ("parm", "debug:enable debug");
   ("parmtype", "debug:bool")].

Definition foo_ko : kmod_module :=
  mkModule "/lib/modules/x/foo.ko" "foo" (kmod_ok 3 foo_info).

(** Two parameters, first [a] then [b]. *)
Definition ab_info : list (string * string) :=
  [("parmtype", "a:int"); ("parmtype", "b:int"); ("parmtype", "a:uint")].

Definition ab_ko : kmod_module :=
  mkModule "/lib/modules/x/ab.ko" "ab" (kmod_ok 3 ab_info).

(** The records of one parameter in the two orders. *)
Definition parm_then_type : list (string * string) :=
  [("parm", "debug:enable debug"); ("parmtype", "debug:bool")].

Definition type_then_parm : list (string * string) :=
  [("parmtype", "debug:bool"); ("parm", "debug:enable debug")].

(** A module with a malformed parameter record, and one whose metadata
    cannot be retrieved. *)
Definition bad_info : list (string * string) :=
  [("parmtype", "a:int"); ("parm", "bad-no-colon"); ("author", "A. One")].

Definition bad_ko : kmod_module :=
  mkModule "/lib/modules/x/bad.ko" "bad" (kmod_ok 3 bad_info).

Definition broken_ko : kmod_module :=
  mkModule "/lib/modules/x/broken.ko" "broken" (kmod_err 2).

(** A module tree: [foo.ko], [bad.ko] and [broken.ko] are regular files,
    the alias [snd-foo] names two modules and no other alias is known. *)
Definition ctx_x : kmod_ctx :=
  mkCtx
    (fun name => String.eqb name "foo.ko" || String.eqb name "bad.ko"
                 || String.eqb name "broken.ko")
    (fun path =>
       if String.eqb path "foo.ko" then kmod_ok 0 foo_ko
       else if String.eqb path "bad.ko" then kmod_ok 0 bad_ko
       else if String.eqb path "broken.ko" then kmod_ok 0 broken_ko
       else kmod_err 2)
    (fun alias =>
       if String.eqb alias "snd-foo" then kmod_ok 0 [foo_ko; ab_ko]
       else kmod_err 2).

(** ** Words for the rest of the code *)

(** The list that [add_param] leaves when [malloc] answers: the entry that
    matches is changed in place, a new one is put at the head. *)
Definition upsert (name : string) (namelen : Z)
    (f : struct_param -> struct_param) (params : list struct_param)
  : list struct_param :=
  match find_param name namelen params with
  | Some i => alter_at f i params
  | None => f (mkParam name None None namelen 0 0) :: params
  end.

(** The table after one more raw pair, with memory at hand. *)
Definition table_step (params : list struct_param) (kv : string * string)
  : list struct_param :=
  if is_parm_key (fst kv) then
    match strchr (snd kv) colon_char with
    | Some i =>
        let type := advance (S i) (snd kv) in
        upsert (snd kv) (Z.of_nat i) (store_fields None 0 (Some type) (strlen type)) params
    | None => params
    end
  else params.

(** The text after the ':' of the last well-formed "parm" or "parmtype"
    record named [n]. *)
Fixpoint last_type (n : string) (kvs : list (string * string)) : option string :=
  match kvs with
  | [] => None
  | kv :: kvs' =>
      match last_type n kvs' with
      | Some t => Some t
      | None =>
          if is_parm_key (fst kv) then
            match strchr (snd kv) colon_char with
            | Some i =>
                if String.eqb (take i (snd kv)) n
                then Some (advance (S i) (snd kv)) else None
            | None => None
            end
          else None
      end
  end.

(** The type text of the first entry named [n]. *)
Fixpoint type_of (n : string) (params : list struct_param) : option string :=
  match params with
  | [] => None
  | e :: params' =>
      if String.eqb (entry_name e) n then Some (text_of (p_type e))
      else type_of n params'
  end.

(** An entry as [modinfo_do] leaves it: no description, and a type with
    its length. *)
Definition typed_inv (e : struct_param) : Prop :=
  entry_inv e /\ p_param e = None /\
  exists t, p_type e = Some t /\ p_typelen e = strlen t.

(** What one module adds to [stdout]. *)
Definition module_report (L : libc) (cfg : config) (kmod : kmod_module) : string :=
  stdout (snd (modinfo_do L cfg kmod world0)).

(** The modules an identifier resolves to. *)
Definition identifier_modules (ctx : kmod_ctx) (name : string) : list kmod_module :=
  if stat_is_reg ctx name then
    match kmod_module_new_from_path ctx name with
    | kmod_ok _ kmod => [kmod]
    | kmod_err _ => []
    end
  else
    match kmod_module_new_from_lookup ctx name with
    | kmod_ok _ l => l
    | kmod_err _ => []
    end.

(** The answers of [getopt_long] that set a variable and go on. *)
Definition is_setting (c : ascii) : bool :=
  existsb (Ascii.eqb c) (list_ascii_of_string "adlpn0Fkb").

(** The field, kernel version and root that one answer asks for. *)
Definition field_setting (a : ascii * string) : option string :=
  if Ascii.eqb (fst a) "a" then Some "author"
  else if Ascii.eqb (fst a) "d" then Some "description"
  else if Ascii.eqb (fst a) "l" then Some "license"
  else if Ascii.eqb (fst a) "p" then Some "parm"
  else if Ascii.eqb (fst a) "n" then Some "filename"
  else if Ascii.eqb (fst a) "F" then Some (snd a)
  else None.

Definition kversion_setting (a : ascii * string) : option string :=
  if Ascii.eqb (fst a) "k" then Some (snd a) else None.

Definition root_setting (a : ascii * string) : option string :=
  if Ascii.eqb (fst a) "b" then Some (snd a) else None.

(** The last answer of a list that asks for something, if any. *)
Fixpoint find_last {A B : Type} (f : A -> option B) (l : list A) : option B :=
  match l with
  | [] => None
  | a :: l' =>
      match find_last f l' with
      | Some b => Some b
      | None => f a
      end
  end.

Definition or_else {B : Type} (x d : option B) : option B :=
  match x with
  | Some b => Some b
  | None => d
  end.

(** The options after a list of setting answers: the last word counts. *)
Definition options_of (answers : list (ascii * string)) (o : options) : options :=
  mkOptions
    (if existsb (fun a => Ascii.eqb (fst a) "0") answers then NUL else opt_separator o)
    (or_else (find_last field_setting answers) (opt_field o))
    (or_else (find_last kversion_setting answers) (opt_kversion o))
    (or_else (find_last root_setting answers) (opt_root o)).

(** The field that a shorthand option stands for. *)
Definition shorthand (c : ascii) : option string :=
  if Ascii.eqb c "a" then Some "author"
  else if Ascii.eqb c "d" then Some "description"
  else if Ascii.eqb c "l" then Some "license"
  else if Ascii.eqb c "p" then Some "parm"
  else if Ascii.eqb c "n" then Some "filename"
  else None.


(** A libc whose [malloc] never gives memory. *)
Definition libc_oom : libc := mkLibc (fun _ => "error") (fun _ => false).

(** A parameter record followed by an ordinary pair. *)
Definition param_first_info : list (string * string) :=
  [("parmtype", "a:int"); ("author", "X")].

Definition param_first_ko : kmod_module :=
  mkModule "/lib/modules/x/pf.ko" "pf" (kmod_ok 2 param_first_info).

(** A short key next to a key of more than 15 bytes. *)
Definition dev_info : list (string * string) :=
  [("author", "X"); ("supported_devices", "y"); ("license", "GPL")].

Definition dev_ko : kmod_module :=
  mkModule "/lib/modules/x/dev.ko" "dev" (kmod_ok 3 dev_info).

(** An operating system for the examples. *)
Definition os_x : os :=
  mkOs 4096 (Some "6.1.0") 0
       (fun dirname => match dirname with None => Some ctx_x | Some _ => None end)
       "kmod" "1".

(** ** Strings *)

Lemma str_app_assoc (a b c : string) : (a ++ b) ++ c = a ++ (b ++ c).
Proof. induction a as [|x a IH]; simpl; [reflexivity | now rewrite IH]. Qed.

Lemma str_app_nil_r (a : string) : a ++ EmptyString = a.
Proof. induction a as [|x a IH]; simpl; [reflexivity | now rewrite IH]. Qed.

Lemma concat_str_app (l1 l2 : list string) :
  concat_str (l1 ++ l2)%list = concat_str l1 ++ concat_str l2.
Proof.
  induction l1 as [|s l1 IH]; simpl; [reflexivity|].
  now rewrite IH, str_app_assoc.
Qed.

Lemma strchr_lt (s : string) (c : ascii) (i : nat) :
  strchr s c = Some i -> (i < String.length s)%nat.
Proof.
  revert i; induction s as [|a s IH]; simpl; intros i H; [discriminate|].
  destruct (Ascii.eqb a c).
  - injection H as <-. lia.
  - destruct (strchr s c) as [j|]; [|discriminate].
    injection H as <-. specialize (IH j eq_refl). lia.
Qed.

Lemma length_take (n : nat) (s : string) :
  (n <= String.length s)%nat -> String.length (take n s) = n.
Proof.
  revert s; induction n as [|n IH]; intros [|a s] H; simpl in *; try lia.
  rewrite IH; lia.
Qed.


(** ** The loop of [modinfo_do] in filtered mode *)

Lemma info_foreach_filtered (L : libc) (cfg : config) (f : string)
    (kvs : list (string * string)) (params : list struct_param) (w : world) :
  field cfg = Some f ->
  info_foreach L cfg kvs params w =
    ((loop_done, params),
     mkWorld (stdout w ++ concat_str (filtered_lines cfg f kvs))
             (stderr w) (mallocs w) (calls w)).
Proof.
  intros Hf. revert w.
  induction kvs as [|[key value] kvs IH]; intros w.
  - destruct w; cbn. now rewrite str_app_nil_r.
  - cbn [info_foreach]. rewrite Hf.
    unfold filtered_lines. cbn [filter fst snd].
    destruct (streq f key); cbn [negb].
    + unfold bind, printf. rewrite IH. cbn [stdout stderr mallocs calls map concat_str].
      unfold filtered_lines. now rewrite !str_app_assoc.
    + now rewrite IH.
Qed.

Lemma modinfo_do_filtered (L : libc) (cfg : config) (f : string)
    (kmod : kmod_module) (r : N) (kvs : list (string * string)) (w : world) :
  field cfg = Some f ->
  streq f "filename" = false ->
  kmod_module_get_info kmod = kmod_ok r kvs ->
  modinfo_do L cfg kmod w =
    (Z.of_N r,
     mkWorld (stdout w ++ concat_str (filtered_lines cfg f kvs))
             (stderr w) (mallocs w) (calls w ++ [Ev_get_info kmod])).
Proof.
  intros Hf Hne Hinfo.
  unfold modinfo_do. rewrite Hf, Hne.
  unfold modinfo_do_info, bind, call. rewrite Hinfo.
  rewrite (info_foreach_filtered L cfg f) by exact Hf.
  cbn [fst snd]. rewrite Hf. reflexivity.
Qed.

(** ** The parameter table *)

Lemma entry_name_take (e : struct_param) (i : nat) :
  p_namelen e = Z.of_nat i -> entry_name e = take i (p_name e).
Proof.
  intros H. unfold entry_name, prec_star. rewrite H.
  destruct (Z.ltb_spec (Z.of_nat i) 0); [lia|].
  now rewrite Nat2Z.id.
Qed.

Lemma param_matches_name (e : struct_param) (v : string) (i : nat) :
  entry_inv e ->
  strchr v colon_char = Some i ->
  param_matches e v (Z.of_nat i) = true <-> entry_name e = take i v.
Proof.
  intros (j & Hj & Hlen) Hi.
  rewrite (entry_name_take e j Hlen).
  unfold param_matches, memcmp_eq. rewrite Hlen, Nat2Z.id.
  rewrite andb_true_iff, Z.eqb_eq, String.eqb_eq.
  split.
  - intros [Heq Htake]. apply Nat2Z.inj in Heq. now subst j.
  - intros Htake.
    assert (j = i) as ->.
    { apply strchr_lt in Hj, Hi.
      rewrite <- (length_take j (p_name e)), <- (length_take i v) by lia.
      now rewrite Htake. }
    now split.
Qed.

Lemma find_param_None (v : string) (i : nat) (params : list struct_param) :
  table_inv params ->
  strchr v colon_char = Some i ->
  find_param v (Z.of_nat i) params = None ->
  ~ In (take i v) (map entry_name params).
Proof.
  intros Hinv Hi. induction Hinv as [|e params He Hinv IH]; simpl; [tauto|].
  destruct (param_matches e v (Z.of_nat i)) eqn:Hm; [discriminate|].
  destruct (find_param v (Z.of_nat i) params); [discriminate|].
  intros _ [Heq | Hin]; [|now apply IH].
  apply (param_matches_name e v i He Hi) in Heq. congruence.
Qed.

Lemma find_param_Some (v : string) (i k : nat) (params : list struct_param) :
  table_inv params ->
  strchr v colon_char = Some i ->
  find_param v (Z.of_nat i) params = Some k ->
  In (take i v) (map entry_name params) /\ (k < length params)%nat.
Proof.
  intros Hinv Hi. revert k.
  induction Hinv as [|e params He Hinv IH]; simpl; intros k; [discriminate|].
  destruct (param_matches e v (Z.of_nat i)) eqn:Hm.
  - intros [= <-]. apply (param_matches_name e v i He Hi) in Hm.
    split; [now left | lia].
  - destruct (find_param v (Z.of_nat i) params) as [k'|]; [|discriminate].
    intros [= <-]. destruct (IH k' eq_refl). split; [now right | lia].
Qed.

Lemma store_fields_name param paramlen type typelen (it : struct_param) :
  p_name (store_fields param paramlen type typelen it) = p_name it /\
  p_namelen (store_fields param paramlen type typelen it) = p_namelen it.
Proof. unfold store_fields. destruct param, type; simpl; auto. Qed.

Lemma store_fields_entry_name param paramlen type typelen (it : struct_param) :
  entry_name (store_fields param paramlen type typelen it) = entry_name it.
Proof.
  unfold entry_name.
  now destruct (store_fields_name param paramlen type typelen it) as [-> ->].
Qed.

Lemma store_fields_inv param paramlen type typelen (it : struct_param) :
  entry_inv it -> entry_inv (store_fields param paramlen type typelen it).
Proof.
  unfold entry_inv.
  now destruct (store_fields_name param paramlen type typelen it) as [-> ->].
Qed.

Lemma alter_at_names (f : struct_param -> struct_param) (k : nat)
    (params : list struct_param) :
  (forall e, entry_name (f e) = entry_name e) ->
  map entry_name (alter_at f k params) = map entry_name params.
Proof.
  intros Hf. revert k.
  induction params as [|e params IH]; intros [|k]; simpl; try reflexivity.
  - now rewrite Hf.
  - now rewrite IH.
Qed.

Lemma alter_at_inv (f : struct_param -> struct_param) (k : nat)
    (params : list struct_param) :
  (forall e, entry_inv e -> entry_inv (f e)) ->
  table_inv params -> table_inv (alter_at f k params).
Proof.
  intros Hf Hinv. revert k.
  induction Hinv as [|e params He Hinv IH]; intros [|k]; simpl;
    constructor; auto.
  apply IH.
Qed.

Lemma alter_at_nth (f : struct_param -> struct_param) (k : nat)
    (params : list struct_param) :
  (k < length params)%nat -> nth_error (alter_at f k params) k <> None.
Proof.
  revert k. induction params as [|e params IH]; intros [|k]; simpl;
    try lia; try discriminate.
  intros H. apply IH. lia.
Qed.

(** [add_param] when memory is there: the entry is found or put at the head
    of the list, nothing is printed, and the names of the table change only
    by a first sighting. *)
Lemma add_param_ok (L : libc) (v : string) (i : nat)
    param paramlen type typelen (params : list struct_param) (w : world) :
  no_oom L ->
  table_inv params ->
  strchr v colon_char = Some i ->
  exists it params' n,
    add_param L v (Z.of_nat i) param paramlen type typelen params w =
      ((Some it, params'),
       mkWorld (stdout w) (stderr w) (mallocs w + n)%nat (calls w)) /\
    table_inv params' /\
    map entry_name params' =
      (if in_dec string_dec (take i v) (map entry_name params)
       then map entry_name params
       else take i v :: map entry_name params).
Proof.
  intros Hmem Hinv Hi. unfold add_param.
  destruct (find_param v (Z.of_nat i) params) as [k|] eqn:Hfind.
  - destruct (find_param_Some v i k params Hinv Hi Hfind) as [Hin Hk].
    pose proof (alter_at_nth (store_fields param paramlen type typelen) k params Hk) as Hnth.
    destruct (nth_error _ k) as [it|] eqn:Hit; [|contradiction].
    exists it, (alter_at (store_fields param paramlen type typelen) k params), 0%nat.
    unfold ret. rewrite Nat.add_0_r. destruct w; cbn.
    split; [reflexivity|]. split.
    + apply alter_at_inv; [|assumption]. intros e. apply store_fields_inv.
    + rewrite alter_at_names by (intros e; apply store_fields_entry_name).
      destruct (in_dec string_dec (take i v) (map entry_name params)); [reflexivity | contradiction].
  - pose proof (find_param_None v i params Hinv Hi Hfind) as Hnin.
    unfold bind, malloc. rewrite Hmem. unfold ret.
    eexists _, _, 1%nat. rewrite Nat.add_1_r.
    split; [reflexivity|]. split.
    + constructor; [|assumption]. apply store_fields_inv.
      exists i. split; [exact Hi | reflexivity].
    + cbn [map]. rewrite store_fields_entry_name.
      destruct (in_dec string_dec (take i v) (map entry_name params)); [contradiction|].
      f_equal. now apply entry_name_take.
Qed.

(** ** The loop of [modinfo_do] in default mode *)

Lemma first_seen_step (names : list string) (n : string) (rest : list string) :
  first_seen_from (rev names) (n :: rest) =
  first_seen_from
    (rev (if in_dec string_dec n names then names else n :: names)) rest.
Proof.
  cbn [first_seen_from].
  destruct (in_dec string_dec n (rev names)) as [H|H];
    destruct (in_dec string_dec n names) as [H'|H']; try reflexivity.
  - apply in_rev in H. contradiction.
  - apply in_rev in H'. contradiction.
Qed.

Lemma pad_right_star_empty (w : Z) :
  pad_right_star w EmptyString = spaces (Z.abs_nat w).
Proof. unfold pad_right_star, pad_right. cbn. now rewrite Nat.sub_0_r. Qed.

Lemma info_foreach_default (L : libc) (cfg : config)
    (kvs : list (string * string)) (params : list struct_param) (w : world) :
  field cfg = None ->
  no_oom L ->
  table_inv params ->
  exists params' n,
    info_foreach L cfg kvs params w =
      ((loop_done, params'),
       mkWorld (stdout w ++ concat_str (plain_lines cfg kvs))
               (stderr w ++ concat_str (map malformed_diag (filter is_malformed kvs)))
               (mallocs w + n)%nat (calls w)) /\
    table_inv params' /\
    map entry_name params' =
      rev (first_seen_from (rev (map entry_name params)) (record_names kvs)).
Proof.
  intros Hf Hmem. revert params w. unfold plain_lines.
  induction kvs as [|[key value] kvs IH]; intros params w Hinv.
  - exists params, 0%nat. destruct w; cbn.
    rewrite !str_app_nil_r, Nat.add_0_r, rev_involutive. auto.
  - cbn [info_foreach]. rewrite Hf.
    change (streq key "parm" || streq key "parmtype") with (is_parm_key key).
    cbn [filter map record_names fst snd].
    destruct (is_parm_key key) eqn:Hkey; cbn [negb].
    + destruct (strchr value colon_char) as [i|] eqn:Hcolon.
      * assert (Hname : record_name (key, value) = Some (take i value)).
        { unfold record_name. cbn [fst snd]. now rewrite Hkey, Hcolon. }
        assert (Hwf : is_malformed (key, value) = false).
        { unfold is_malformed. cbn [fst snd]. now rewrite Hkey, Hcolon. }
        rewrite Hname, Hwf.
        assert (Hadd : forall param paramlen type typelen,
                 exists params' n,
                   (r <- add_param L value (Z.of_nat i) param paramlen type typelen params ;;
                    match fst r with
                    | None => LOG ("Out of memory!" ++ str1 newline) ;; ret (goto_end, snd r)
                    | Some _ => info_foreach L cfg kvs (snd r)
                    end) w =
                   ((loop_done, params'),
                    mkWorld
                      (stdout w ++ concat_str
                         (map (plain_line cfg)
                            (filter (fun kv => negb (is_parm_key (fst kv))) kvs)))
                      (stderr w ++ concat_str (map malformed_diag (filter is_malformed kvs)))
                      (mallocs w + n)%nat (calls w)) /\
                   table_inv params' /\
                   map entry_name params' =
                     rev (first_seen_from (rev (map entry_name params))
                            (take i value :: record_names kvs))).
        { intros param paramlen type typelen.
          destruct (add_param_ok L value i param paramlen type typelen params w
                      Hmem Hinv Hcolon) as (it & ps1 & n1 & Hadd & Hinv1 & Hnames1).
          unfold bind at 1. rewrite Hadd. cbn [fst snd].
          destruct (IH ps1 (mkWorld (stdout w) (stderr w) (mallocs w + n1)%nat (calls w)) Hinv1)
            as (ps2 & n2 & Hloop & Hinv2 & Hnames2).
          exists ps2, (n1 + n2)%nat. rewrite Hloop. cbn [stdout stderr mallocs calls].
          rewrite Nat.add_assoc. split; [reflexivity|]. split; [assumption|].
          rewrite Hnames2, Hnames1. now rewrite first_seen_step. }
        destruct (streq key "param"); apply Hadd.
      * assert (Hname : record_name (key, value) = None).
        { unfold record_name. cbn [fst snd]. now rewrite Hkey, Hcolon. }
        assert (Hwf : is_malformed (key, value) = true).
        { unfold is_malformed. cbn [fst snd]. now rewrite Hkey, Hcolon. }
        rewrite Hname, Hwf.
        unfold bind, LOG.
        destruct (IH params
                    (mkWorld (stdout w)
                       (stderr w ++ "ERROR: " ++ "Found invalid " ++ str1 dquote ++ key ++ "="
                          ++ value ++ str1 dquote ++ ": missing ':'" ++ str1 newline)
                       (mallocs w) (calls w)) Hinv)
          as (ps2 & n2 & Hloop & Hinv2 & Hnames2).
        exists ps2, n2. rewrite Hloop. cbn [stdout stderr mallocs calls map concat_str].
        split; [|auto]. do 2 f_equal.
        unfold malformed_diag. cbn [fst snd]. now rewrite !str_app_assoc.
    + assert (Hname : record_name (key, value) = None).
      { unfold record_name. cbn [fst snd]. now rewrite Hkey. }
      assert (Hwf : is_malformed (key, value) = false).
      { unfold is_malformed. cbn [fst snd]. now rewrite Hkey. }
      rewrite Hname, Hwf.
      assert (Hplain : forall line,
                 line = plain_line cfg (key, value) ->
                 exists params' n,
                   (printf line ;; info_foreach L cfg kvs params) w =
                   ((loop_done, params'),
                    mkWorld
                      (stdout w ++ concat_str
                         (plain_line cfg (key, value) ::
                          map (plain_line cfg)
                            (filter (fun kv => negb (is_parm_key (fst kv))) kvs)))
                      (stderr w ++ concat_str (map malformed_diag (filter is_malformed kvs)))
                      (mallocs w + n)%nat (calls w)) /\
                   table_inv params' /\
                   map entry_name params' =
                     rev (first_seen_from (rev (map entry_name params)) (record_names kvs))).
      { intros line ->. unfold bind, printf.
        destruct (IH params
                    (mkWorld (stdout w ++ plain_line cfg (key, value)) (stderr w)
                       (mallocs w) (calls w)) Hinv)
          as (ps2 & n2 & Hloop & Hinv2 & Hnames2).
        exists ps2, n2. rewrite Hloop. cbn [stdout stderr mallocs calls concat_str].
        rewrite !str_app_assoc. auto. }
      destruct (Ascii.eqb (separator cfg) NUL) eqn:Hsep; apply Hplain;
        unfold plain_line; rewrite Hsep; cbn [fst snd]; [reflexivity|].
      now rewrite pad_right_star_empty.
Qed.

(** With memory at hand the table that the loop builds does not depend on
    the world it runs in. *)
Lemma info_foreach_table_indep (L : libc) (cfg : config)
    (kvs : list (string * string)) (params : list struct_param) (w1 w2 : world) :
  no_oom L ->
  fst (info_foreach L cfg kvs params w1) = fst (info_foreach L cfg kvs params w2).
Proof.
  intros Hmem. revert params w1 w2.
  induction kvs as [|[key value] kvs IH]; intros params w1 w2; [reflexivity|].
  cbn [info_foreach].
  destruct (field cfg) as [f|].
  - destruct (streq f key); cbn [negb]; [|apply IH].
    unfold bind, printf. apply IH.
  - destruct (streq key "parm" || streq key "parmtype").
    + destruct (strchr value colon_char) as [i|].
      * assert (Hadd : forall param paramlen type typelen,
                 fst ((r <- add_param L value (Z.of_nat i) param paramlen type typelen params ;;
                       match fst r with
                       | None => LOG ("Out of memory!" ++ str1 newline) ;; ret (goto_end, snd r)
                       | Some _ => info_foreach L cfg kvs (snd r)
                       end) w1) =
                 fst ((r <- add_param L value (Z.of_nat i) param paramlen type typelen params ;;
                       match fst r with
                       | None => LOG ("Out of memory!" ++ str1 newline) ;; ret (goto_end, snd r)
                       | Some _ => info_foreach L cfg kvs (snd r)
                       end) w2)).
        { intros param paramlen type typelen. unfold bind at 1 3. unfold add_param.
          destruct (find_param value (Z.of_nat i) params) as [k|].
          - unfold ret. cbn [fst snd].
            destruct (nth_error _ k); [apply IH | reflexivity].
          - unfold bind, malloc. rewrite !Hmem. unfold ret. cbn [fst snd]. apply IH. }
        destruct (streq key "param"); apply Hadd.
      * unfold bind, LOG. apply IH.
    + destruct (Ascii.eqb (separator cfg) NUL); unfold bind, printf; apply IH.
Qed.

(** ** Printing the table *)

Lemma print_param_line (cfg : config) (p : struct_param) (w : world) :
  print_param cfg p w = printf (param_line cfg p) w.
Proof.
  unfold print_param, param_line, entry_name.
  destruct (p_param p) as [d|], (p_type p) as [t|];
    now rewrite ?str_app_assoc.
Qed.

Lemma print_params_lines (cfg : config) (params : list struct_param) (w : world) :
  print_params cfg params w =
    (tt, mkWorld (stdout w ++ concat_str (map (param_line cfg) params))
                 (stderr w) (mallocs w) (calls w)).
Proof.
  revert w. induction params as [|p params IH]; intros w.
  - destruct w; cbn. now rewrite str_app_nil_r.
  - cbn [print_params]. unfold bind. rewrite print_param_line.
    unfold printf. rewrite IH. cbn [stdout stderr mallocs calls map concat_str].
    now rewrite str_app_assoc.
Qed.

(** ** [modinfo_do] in default mode *)

Lemma modinfo_do_default (L : libc) (cfg : config) (kmod : kmod_module)
    (r : N) (kvs : list (string * string)) (w : world) :
  field cfg = None ->
  no_oom L ->
  kmod_module_get_info kmod = kmod_ok r kvs ->
  exists table n,
    modinfo_do L cfg kmod w =
      (Z.of_N r,
       mkWorld (stdout w ++ filename_line cfg kmod
                  ++ concat_str (plain_lines cfg kvs)
                  ++ concat_str (map (param_line cfg) table))
               (stderr w ++ concat_str (map malformed_diag (filter is_malformed kvs)))
               (mallocs w + n)%nat (calls w ++ [Ev_get_info kmod])) /\
    (forall w0, fst (info_foreach L cfg kvs [] w0) = (loop_done, table)) /\
    table_inv table /\
    map entry_name table = rev (first_seen (record_names kvs)).
Proof.
  intros Hf Hmem Hinfo.
  unfold modinfo_do. rewrite Hf.
  unfold modinfo_do_info, bind at 1 2, printf, call. rewrite Hinfo.
  cbn [stdout stderr mallocs calls].
  match goal with
  | |- context [bind _ _ ?w1] =>
      destruct (info_foreach_default L cfg kvs [] w1 Hf Hmem (Forall_nil _))
        as (table & n & Hloop & Hinv & Hnames)
  end.
  exists table, n. unfold bind. rewrite Hloop. cbn [fst snd]. rewrite Hf.
  rewrite print_params_lines. unfold ret. cbn [stdout stderr mallocs calls].
  unfold filename_line. rewrite !str_app_assoc.
  repeat split; try assumption.
  intros w0.
  match type of Hloop with
  | info_foreach _ _ _ _ ?w1 = _ =>
      rewrite (info_foreach_table_indep L cfg kvs [] w0 w1 Hmem), Hloop
  end.
  reflexivity.
Qed.

Lemma info_foreach_app (L : libc) (cfg : config)
    (l1 l2 : list (string * string)) (params : list struct_param) (w : world) :
  info_foreach L cfg (l1 ++ l2) params w =
    match info_foreach L cfg l1 params w with
    | ((loop_done, params1), w1) => info_foreach L cfg l2 params1 w1
    | ((goto_end, params1), w1) => ((goto_end, params1), w1)
    end.
Proof.
  revert params w.
  induction l1 as [|[key value] l1 IH]; intros params w; [reflexivity|].
  cbn [app info_foreach].
  destruct (field cfg) as [f|].
  - destruct (streq f key); cbn [negb]; [|apply IH].
    unfold bind, printf. apply IH.
  - destruct (streq key "parm" || streq key "parmtype").
    + destruct (strchr value colon_char) as [i|].
      * destruct (streq key "param"); unfold bind at 1 3;
          match goal with
          | |- context [add_param ?a ?b ?c ?d ?e ?f ?g ?h ?x] =>
              destruct (add_param a b c d e f g h x) as [[[it|] ps] w']
          end; cbn [fst snd]; try apply IH; reflexivity.
      * unfold bind, LOG. apply IH.
    + destruct (Ascii.eqb (separator cfg) NUL); unfold bind, printf; apply IH.
Qed.

(** ** Return values and libkmod calls *)

Lemma add_param_calls (L : libc) name namelen param paramlen type typelen
    (params : list struct_param) (w : world) :
  calls (snd (add_param L name namelen param paramlen type typelen params w)) = calls w.
Proof.
  unfold add_param. destruct (find_param name namelen params); [reflexivity|].
  unfold bind, malloc. now destruct (malloc_ok L (mallocs w)).
Qed.

Lemma info_foreach_calls (L : libc) (cfg : config)
    (kvs : list (string * string)) (params : list struct_param) (w : world) :
  calls (snd (info_foreach L cfg kvs params w)) = calls w.
Proof.
  revert params w.
  induction kvs as [|[key value] kvs IH]; intros params w; [reflexivity|].
  cbn [info_foreach].
  destruct (field cfg) as [f|].
  - destruct (streq f key); cbn [negb]; [|apply IH].
    unfold bind, printf. now rewrite IH.
  - destruct (streq key "parm" || streq key "parmtype").
    + destruct (strchr value colon_char) as [i|].
      * destruct (streq key "param"); unfold bind at 1;
          match goal with
          | |- context [add_param ?a ?b ?c ?d ?e ?f ?g ?h ?x] =>
              pose proof (add_param_calls a b c d e f g h x) as Hc;
              destruct (add_param a b c d e f g h x) as [[[it|] ps] w']
          end; cbn [fst snd] in *; rewrite ?IH; try assumption;
          unfold bind, LOG, ret; cbn; assumption.
      * unfold bind, LOG. now rewrite IH.
    + destruct (Ascii.eqb (separator cfg) NUL); unfold bind, printf; now rewrite IH.
Qed.

(** What [modinfo_do] returns and which libkmod calls it makes, whatever
    the module holds and whatever [malloc] answers. *)
Lemma modinfo_do_status (L : libc) (cfg : config) (kmod : kmod_module) (w : world) :
  fst (modinfo_do L cfg kmod w) =
    (if filename_filter cfg then 0 else ret_code (kmod_module_get_info kmod)) /\
  calls (snd (modinfo_do L cfg kmod w)) = (calls w ++ module_calls cfg kmod)%list.
Proof.
  assert (Hinfo : forall w1,
             fst (modinfo_do_info L cfg kmod w1) = ret_code (kmod_module_get_info kmod) /\
             calls (snd (modinfo_do_info L cfg kmod w1)) = (calls w1 ++ [Ev_get_info kmod])%list).
  { intros w1. unfold modinfo_do_info, call.
    destruct (kmod_module_get_info kmod) as [r kvs|errno]; [|split; reflexivity].
    unfold bind. cbv beta iota.
    match goal with
    | |- context [info_foreach L cfg kvs [] ?x] =>
        pose proof (info_foreach_calls L cfg kvs [] x) as Hc;
        destruct (info_foreach L cfg kvs [] x) as [[ex ps] w2]
    end.
    cbn [fst snd calls] in *.
    destruct ex, (field cfg); unfold ret; cbn [fst snd ret_code]; auto.
    rewrite print_params_lines. cbn. auto. }
  unfold modinfo_do, module_calls, filename_filter.
  destruct (field cfg) as [f|].
  - destruct (streq f "filename"); [|apply Hinfo].
    unfold bind, printf, ret. cbn. now rewrite app_nil_r.
  - unfold bind at 1, printf.
    match goal with
    | |- context [modinfo_do_info L cfg kmod ?x] => destruct (Hinfo x) as [H1 H2]
    end.
    split; [exact H1 | exact H2].
Qed.

Lemma modinfo_do_neg (L : libc) (cfg : config) (kmod : kmod_module) (w : world) :
  (fst (modinfo_do L cfg kmod w) <? 0) = negb (module_ok cfg kmod).
Proof.
  destruct (modinfo_do_status L cfg kmod w) as [-> _].
  unfold module_ok.
  destruct (filename_filter cfg); [reflexivity|].
  destruct (kmod_module_get_info kmod) as [r kvs|errno]; cbn [ret_code is_ok orb negb].
  - apply Z.ltb_ge. lia.
  - reflexivity.
Qed.

Lemma sticky_neg (r err : Z) :
  ((if r <? 0 then r else err) <? 0) = (err <? 0) || (r <? 0).
Proof.
  destruct (r <? 0) eqn:Hr; [rewrite Hr; now rewrite orb_true_r|].
  now rewrite orb_false_r.
Qed.

Lemma alias_foreach_status (L : libc) (cfg : config) (l : list kmod_module)
    (err : Z) (w : world) :
  (fst (alias_foreach L cfg l err w) <? 0) =
    (err <? 0) || negb (forallb (module_ok cfg) l) /\
  calls (snd (alias_foreach L cfg l err w)) =
    (calls w ++ flat_map (module_calls cfg) l)%list.
Proof.
  revert err w. induction l as [|kmod l IH]; intros err w.
  - cbn. now rewrite orb_false_r, app_nil_r.
  - cbn [alias_foreach forallb flat_map]. unfold bind.
    pose proof (modinfo_do_neg L cfg kmod w) as Hneg.
    destruct (modinfo_do_status L cfg kmod w) as [_ Hcalls].
    destruct (modinfo_do L cfg kmod w) as [r w1]. cbn [fst snd] in *.
    destruct (IH (if r <? 0 then r else err) w1) as [-> ->].
    rewrite sticky_neg, Hneg, Hcalls, negb_andb, app_assoc, orb_assoc.
    split; reflexivity.
Qed.

(** One turn of the module loop of [main]. *)
Lemma identifier_status (L : libc) (cfg : config) (ctx : kmod_ctx)
    (name : string) (w : world) :
  let r := (if stat_is_reg ctx name then modinfo_path_do L cfg ctx name
            else modinfo_alias_do L cfg ctx name) w in
  (fst r <? 0) = negb (identifier_ok cfg ctx name) /\
  calls (snd r) = (calls w ++ identifier_calls cfg ctx name)%list.
Proof.
  unfold identifier_ok, identifier_calls, resolve_event.
  destruct (stat_is_reg ctx name); cbv zeta.
  - unfold modinfo_path_do, bind, call. cbv beta iota.
    destruct (kmod_module_new_from_path ctx name) as [r kmod|errno].
    + rewrite modinfo_do_neg.
      match goal with
      | |- context [modinfo_do L cfg kmod ?x] =>
          destruct (modinfo_do_status L cfg kmod x) as [_ ->]
      end.
      cbn [calls]. now rewrite <- app_assoc.
    + split; reflexivity.
  - unfold modinfo_alias_do, bind, call. cbv beta iota.
    destruct (kmod_module_new_from_lookup ctx name) as [r l|errno].
    + match goal with
      | |- context [alias_foreach L cfg l ?e ?x] =>
          destruct (alias_foreach_status L cfg l e x) as [-> ->]
      end.
      cbn [calls]. rewrite <- app_assoc.
      split; [|reflexivity].
      destruct (Z.ltb_spec (Z.of_N r) 0); [lia | reflexivity].
    + split; reflexivity.
Qed.

Lemma main_loop_status (L : libc) (cfg : config) (ctx : kmod_ctx)
    (args : list string) (err : Z) (w : world) :
  (fst (main_loop L cfg ctx args err w) <? 0) =
    (err <? 0) || negb (forallb (identifier_ok cfg ctx) args) /\
  calls (snd (main_loop L cfg ctx args err w)) =
    (calls w ++ flat_map (identifier_calls cfg ctx) args)%list.
Proof.
  revert err w. induction args as [|name args IH]; intros err w.
  - cbn. now rewrite orb_false_r, app_nil_r.
  - cbn [main_loop forallb flat_map]. unfold bind.
    destruct (identifier_status L cfg ctx name w) as [Hneg Hcalls].
    cbv zeta in Hneg, Hcalls.
    destruct ((if stat_is_reg ctx name then modinfo_path_do L cfg ctx name
               else modinfo_alias_do L cfg ctx name) w) as [r w1].
    cbn [fst snd] in *.
    destruct (IH (if r <? 0 then r else err) w1) as [-> ->].
    rewrite sticky_neg, Hneg, Hcalls, negb_andb, app_assoc, orb_assoc.
    split; reflexivity.
Qed.

Lemma main_status (L : libc) (cfg : config) (ctx : kmod_ctx)
    (args : list string) (w : world) :
  fst (main L cfg ctx args w) =
    (if forallb (identifier_ok cfg ctx) args then EXIT_SUCCESS else EXIT_FAILURE) /\
  calls (snd (main L cfg ctx args w)) =
    (calls w ++ flat_map (identifier_calls cfg ctx) args)%list.
Proof.
  unfold main, bind.
  destruct (main_loop_status L cfg ctx args 0 w) as [Hneg Hcalls].
  destruct (main_loop L cfg ctx args 0 w) as [err w1]. cbn [fst snd ret] in *.
  split; [|exact Hcalls].
  change (0 <? 0) with false in Hneg. cbn [orb] in Hneg.
  rewrite Z.geb_leb.
  destruct (forallb (identifier_ok cfg ctx) args); cbn [negb] in Hneg.
  - apply Z.ltb_ge in Hneg. apply Z.leb_le in Hneg. now rewrite Hneg.
  - apply Z.ltb_lt in Hneg.
    destruct (Z.leb_spec 0 err); [lia | reflexivity].
Qed.

(** ** First-seen order *)

Lemma first_seen_from_NoDup (seen names : list string) :
  NoDup seen -> NoDup (first_seen_from seen names).
Proof.
  revert seen. induction names as [|n names IH]; intros seen Hnd; [exact Hnd|].
  cbn [first_seen_from].
  destruct (in_dec string_dec n seen) as [Hin|Hnin]; apply IH; [exact Hnd|].
  replace (seen ++ [n])%list with (rev (n :: rev seen))
    by (cbn [rev]; now rewrite rev_involutive).
  apply NoDup_rev. constructor.
  - now rewrite <- in_rev.
  - now apply NoDup_rev.
Qed.

Lemma first_seen_from_In (seen names : list string) (x : string) :
  In x (first_seen_from seen names) <-> In x seen \/ In x names.
Proof.
  revert seen. induction names as [|n names IH]; intros seen.
  - cbn. tauto.
  - cbn [first_seen_from].
    destruct (in_dec string_dec n seen) as [Hin|Hnin]; rewrite IH.
    + cbn [In]. split; [tauto|].
      intros [H|[<-|H]]; auto.
    + rewrite in_app_iff. cbn [In]. tauto.
Qed.


(** A well-formed "parm" record reaches [add_param] with a NULL [param]:
    its text after the ':' is stored as the type of the entry. *)
Lemma parm_record_stored_as_type (L : libc) (sep : ascii) (value : string)
    (i : nat) (w : world) :
  malloc_ok L (mallocs w) = true ->
  strchr value colon_char = Some i ->
  fst (info_foreach L (mkConfig sep None) [("parm", value)] [] w) =
    (loop_done,
     [mkParam value None (Some (advance (S i) value))
        (Z.of_nat i) 0 (strlen (advance (S i) value))]).
Proof.
  intros Hmem Hcolon. cbn [info_foreach field]. rewrite Hcolon.
  cbn. unfold bind, add_param, malloc. cbn. now rewrite Hmem.
Qed.

(** * The claims *)

(** C1 (code defect). The code run on the example of the specification:
    the "parm" record of [debug] never reaches the [param] field, because
    [modinfo_do] compares the key with "param"; the description text is
    stored as the type, the "parmtype" record overwrites it, and the entry
    is printed as [debug:bool], not as [debug enable debug (bool)]. *)
Theorem spec_example_report :
  stdout (snd (modinfo_do libc_ok cfg_default foo_ko world0)) =
    "filename:       /lib/modules/x/foo.ko" ++ nl ++
    "author:         A. One" ++ nl ++
    "parm:           debug:bool" ++ nl /\
  fst (info_foreach libc_ok cfg_default foo_info [] world0) =
    (loop_done, [mkParam "debug:enable debug" None (Some "bool") 5 0 4]) /\
  stdout (snd (modinfo_do libc_ok cfg_default foo_ko world0)) <>
    "filename:       /lib/modules/x/foo.ko" ++ nl ++
    "author:         A. One" ++ nl ++
    "parm:           debug enable debug (bool)" ++ nl.
Proof.
  split; [reflexivity|]. split; [reflexivity|].
  vm_compute. discriminate.
Qed.

(** The line of an entry with both fields, as [print_param] writes it: the
    name runs into the description. *)
Example both_fields_line :
  param_line cfg_default
    (mkParam "debug:enable debug" (Some "enable debug") (Some "bool") 5 12 4) =
  "parm:           debugenable debug (bool)" ++ nl.
Proof. reflexivity. Qed.

(** C2 as stated fails: the table of [ab.ko] lists [b] before [a], and so
    does the report, while the first-seen order is [a], [b]. *)
Lemma table_not_in_first_seen_order :
  let table := snd (fst (info_foreach libc_ok cfg_default ab_info [] world0)) in
  map entry_name table = ["b"; "a"] /\
  first_seen (record_names ab_info) = ["a"; "b"] /\
  map entry_name table <> first_seen (record_names ab_info) /\
  stdout (snd (modinfo_do libc_ok cfg_default ab_ko world0)) =
    "filename:       /lib/modules/x/ab.ko" ++ nl ++
    "parm:           b:int" ++ nl ++
    "parm:           a:uint" ++ nl.
Proof.
  cbv zeta. split; [reflexivity|]. split; [reflexivity|].
  split; [|reflexivity]. vm_compute. discriminate.
Qed.

(** C2 (amended). In default mode, when no allocation fails, the table the
    loop of [modinfo_do] builds holds exactly one entry per distinct name of
    a well-formed "parm" or "parmtype" record (names compared byte by byte);
    a name seen for the first time is put at the head of the list, so the
    table is the first-seen order reversed; and the report prints the table
    from its head, after the lines of the other pairs. *)
Theorem param_table_reverse_first_seen (L : libc) (cfg : config)
    (kmod : kmod_module) (r : N) (kvs : list (string * string)) (w : world) :
  field cfg = None ->
  no_oom L ->
  kmod_module_get_info kmod = kmod_ok r kvs ->
  exists table,
    (forall w0, fst (info_foreach L cfg kvs [] w0) = (loop_done, table)) /\
    map entry_name table = rev (first_seen (record_names kvs)) /\
    NoDup (map entry_name table) /\
    (forall n, In n (map entry_name table) <-> In n (record_names kvs)) /\
    stdout (snd (modinfo_do L cfg kmod w)) =
      stdout w ++ filename_line cfg kmod
        ++ concat_str (plain_lines cfg kvs)
        ++ concat_str (map (param_line cfg) table).
Proof.
  intros Hf Hmem Hinfo.
  destruct (modinfo_do_default L cfg kmod r kvs w Hf Hmem Hinfo)
    as (table & n & Hdo & Hloop & _ & Hnames).
  exists table. split; [exact Hloop|]. split; [exact Hnames|].
  rewrite Hnames, Hdo. split; [|split].
  - apply NoDup_rev, first_seen_from_NoDup. constructor.
  - intros x. rewrite <- in_rev. unfold first_seen.
    rewrite first_seen_from_In. cbn [In]. tauto.
  - reflexivity.
Qed.

Lemma param_table_reverse_first_seen_witness :
  field cfg_default = None /\
  no_oom libc_ok /\
  kmod_module_get_info ab_ko = kmod_ok 3 ab_info /\
  exists table,
    (forall w0, fst (info_foreach libc_ok cfg_default ab_info [] w0) = (loop_done, table)) /\
    map entry_name table = rev (first_seen (record_names ab_info)) /\
    NoDup (map entry_name table) /\
    (forall n, In n (map entry_name table) <-> In n (record_names ab_info)) /\
    stdout (snd (modinfo_do libc_ok cfg_default ab_ko world0)) =
      stdout world0 ++ filename_line cfg_default ab_ko
        ++ concat_str (plain_lines cfg_default ab_info)
        ++ concat_str (map (param_line cfg_default) table).
Proof.
  split; [reflexivity|]. split; [intros n; reflexivity|]. split; [reflexivity|].
  apply (param_table_reverse_first_seen libc_ok cfg_default ab_ko 3 ab_info world0).
  - reflexivity.
  - intros n. reflexivity.
  - reflexivity.
Defined.

(** C3 (code defect). The two records of [debug] in the two orders leave
    two different entries: both records store their text into the type
    field, and the one that comes last wins. *)
Theorem parm_parmtype_order_matters :
  fst (info_foreach libc_ok cfg_default parm_then_type [] world0) =
    (loop_done, [mkParam "debug:enable debug" None (Some "bool") 5 0 4]) /\
  fst (info_foreach libc_ok cfg_default type_then_parm [] world0) =
    (loop_done, [mkParam "debug:bool" None (Some "enable debug") 5 0 12]) /\
  map (param_line cfg_default)
      (snd (fst (info_foreach libc_ok cfg_default parm_then_type [] world0))) =
    ["parm:           debug:bool" ++ nl] /\
  map (param_line cfg_default)
      (snd (fst (info_foreach libc_ok cfg_default type_then_parm [] world0))) =
    ["parm:           debug:enable debug" ++ nl].
Proof. repeat split; reflexivity. Qed.






(** The two ends of C4 on concrete modules: with memory the whole of
    [foo.ko] is reported, and when [malloc] gives nothing the report of a
    module that opens with a parameter record is its filename line. *)
Example nul_report_with_and_without_memory :
  stdout (snd (modinfo_do libc_ok cfg_nul foo_ko world0)) =
    "filename:       /lib/modules/x/foo.ko" ++ str1 NUL
      ++ "author=A. One" ++ str1 NUL
      ++ "parm:           debug:bool" ++ str1 NUL /\
  modinfo_do libc_oom cfg_nul param_first_ko world0 =
    (2, mkWorld ("filename:       /lib/modules/x/pf.ko" ++ str1 NUL)
          ("ERROR: Out of memory!" ++ str1 newline) 1
          [Ev_get_info param_first_ko]).
Proof. split; reflexivity. Qed.

Lemma forallb_false_exists {A : Type} (f : A -> bool) (l : list A) :
  forallb f l = false <-> exists x, In x l /\ f x = false.
Proof.
  induction l as [|a l IH]; cbn.
  - split; [discriminate | intros (x & [] & _)].
  - rewrite andb_false_iff, IH. split.
    + intros [H|(x & Hin & Hx)]; [exists a | exists x]; auto.
    + intros (x & [<-|Hin] & Hx); [now left | right; now exists x].
Qed.

(** C5 as stated fails: [bad.ko] holds a malformed "parm" record, the
    diagnostic is written, and the exit status is still zero. *)
Lemma exit_status_ignores_malformed_record :
  let r := main libc_ok cfg_default ctx_x ["bad.ko"] world0 in
  fst r = EXIT_SUCCESS /\
  stderr (snd r) = malformed_diag ("parm", "bad-no-colon") /\
  ~ (fst r = EXIT_SUCCESS <-> error_free (snd r)).
Proof.
  cbv zeta. split; [reflexivity|]. split; [reflexivity|].
  intros [H _]. specialize (H eq_refl). vm_compute in H. discriminate H.
Qed.

(** C5 (amended). In a run where no allocation fails, the exit status is
    zero if and only if every identifier resolved and, for every module it
    resolved to, the metadata was retrieved or the "filename" filter did not
    ask for it; otherwise it is [EXIT_FAILURE]. A malformed parameter record
    is reported but does not change the exit status. Every identifier is
    attempted in turn, and every module of an alias, whatever failed before:
    the libkmod calls of the run are those of each identifier in order. *)
Theorem exit_status_aggregates (L : libc) (cfg : config) (ctx : kmod_ctx)
    (args : list string) (w : world) :
  no_oom L ->
  let r := main L cfg ctx args w in
  (fst r = EXIT_SUCCESS <->
     forall name, In name args -> identifier_ok cfg ctx name = true) /\
  (fst r = EXIT_FAILURE <->
     exists name, In name args /\ identifier_ok cfg ctx name = false) /\
  calls (snd r) = (calls w ++ flat_map (identifier_calls cfg ctx) args)%list /\
  (forall kmod n kvs w0,
     field cfg = None ->
     kmod_module_get_info kmod = kmod_ok n kvs ->
     0 <= fst (modinfo_do L cfg kmod w0) /\
     stderr (snd (modinfo_do L cfg kmod w0)) =
       stderr w0 ++ concat_str (map malformed_diag (filter is_malformed kvs))).
Proof.
  intros Hmem. cbv zeta.
  destruct (main_status L cfg ctx args w) as [-> ->].
  rewrite <- forallb_forall, <- forallb_false_exists.
  split; [|split; [|split; [reflexivity|]]].
  - destruct (forallb (identifier_ok cfg ctx) args);
      unfold EXIT_SUCCESS, EXIT_FAILURE; split; intros; congruence.
  - destruct (forallb (identifier_ok cfg ctx) args);
      unfold EXIT_SUCCESS, EXIT_FAILURE; split; intros; congruence.
  - intros kmod n kvs w0 Hf Hinfo.
    destruct (modinfo_do_default L cfg kmod n kvs w0 Hf Hmem Hinfo)
      as (table & k & -> & _).
    cbn [fst snd stderr]. split; [lia | reflexivity].
Qed.

Lemma exit_status_aggregates_witness :
  no_oom libc_ok /\
  let r := main libc_ok cfg_default ctx_x ["nosuch"; "broken.ko"; "bad.ko"] world0 in
  (fst r = EXIT_SUCCESS <->
     forall name, In name ["nosuch"; "broken.ko"; "bad.ko"] ->
                  identifier_ok cfg_default ctx_x name = true) /\
  (fst r = EXIT_FAILURE <->
     exists name, In name ["nosuch"; "broken.ko"; "bad.ko"] /\
                  identifier_ok cfg_default ctx_x name = false) /\
  calls (snd r) =
    (calls world0 ++
     flat_map (identifier_calls cfg_default ctx_x) ["nosuch"; "broken.ko"; "bad.ko"])%list /\
  (forall kmod n kvs w0,
     field cfg_default = None ->
     kmod_module_get_info kmod = kmod_ok n kvs ->
     0 <= fst (modinfo_do libc_ok cfg_default kmod w0) /\
     stderr (snd (modinfo_do libc_ok cfg_default kmod w0)) =
       stderr w0 ++ concat_str (map malformed_diag (filter is_malformed kvs))).
Proof.
  split; [intros n; reflexivity|].
  apply (exit_status_aggregates libc_ok cfg_default ctx_x
           ["nosuch"; "broken.ko"; "bad.ko"] world0).
  intros n. reflexivity.
Defined.

(** A run over an unknown alias, a module without metadata and a module
    with a malformed record: all three are attempted, the last one is
    reported, and the exit status is [EXIT_FAILURE]. *)
Example run_goes_on_after_errors :
  let r := main libc_ok cfg_default ctx_x ["nosuch"; "broken.ko"; "bad.ko"] world0 in
  fst r = EXIT_FAILURE /\
  stdout (snd r) =
    "filename:       /lib/modules/x/broken.ko" ++ nl ++
    "filename:       /lib/modules/x/bad.ko" ++ nl ++
    "author:         A. One" ++ nl ++
    "parm:           a:int" ++ nl /\
  calls (snd r) =
    [Ev_new_from_lookup "nosuch";
     Ev_new_from_path "broken.ko"; Ev_get_info broken_ko;
     Ev_new_from_path "bad.ko"; Ev_get_info bad_ko].
Proof. cbv zeta. repeat split; reflexivity. Qed.

(** C6. In default mode a "parm" or "parmtype" record whose value holds no
    ':' is skipped: the loop goes on with the next record from the very
    table it had reached, nothing is printed, no memory is asked for, and
    the diagnostic is appended to the error stream. *)
Theorem malformed_record_skipped (L : libc) (cfg : config)
    (key value : string) (kvs1 kvs2 : list (string * string))
    (params1 : list struct_param) (w w1 : world) :
  field cfg = None ->
  key = "parm" \/ key = "parmtype" ->
  strchr value colon_char = None ->
  info_foreach L cfg kvs1 [] w = ((loop_done, params1), w1) ->
  info_foreach L cfg (kvs1 ++ (key, value) :: kvs2) [] w =
    info_foreach L cfg kvs2 params1
      (mkWorld (stdout w1) (stderr w1 ++ malformed_diag (key, value))
               (mallocs w1) (calls w1)).
Proof.
  intros Hf Hkey Hcolon Hloop.
  rewrite info_foreach_app, Hloop.
  cbn [info_foreach]. rewrite Hf, Hcolon.
  assert (streq key "parm" || streq key "parmtype" = true) as ->.
  { destruct Hkey as [-> | ->]; reflexivity. }
  unfold bind, LOG, malformed_diag. cbn [fst snd]. reflexivity.
Qed.

Lemma malformed_record_skipped_witness :
  field cfg_default = None /\
  ("parm" = "parm" \/ "parm" = "parmtype") /\
  strchr "bad-no-colon" colon_char = None /\
  info_foreach libc_ok cfg_default [("parmtype", "a:int")] [] world0 =
    ((loop_done, [mkParam "a:int" None (Some "int") 1 0 3]),
     mkWorld EmptyString EmptyString 1 []) /\
  info_foreach libc_ok cfg_default
      ([("parmtype", "a:int")] ++ ("parm", "bad-no-colon") :: [("author", "A. One")])
      [] world0 =
    info_foreach libc_ok cfg_default [("author", "A. One")]
      [mkParam "a:int" None (Some "int") 1 0 3]
      (mkWorld EmptyString
         (EmptyString ++ malformed_diag ("parm", "bad-no-colon")) 1 []).
Proof.
  split; [reflexivity|]. split; [left; reflexivity|].
  split; [reflexivity|]. split; [reflexivity|].
  apply (malformed_record_skipped libc_ok cfg_default "parm" "bad-no-colon"
           [("parmtype", "a:int")] [("author", "A. One")]
           [mkParam "a:int" None (Some "int") 1 0 3]
           world0 (mkWorld EmptyString EmptyString 1 [])).
  - reflexivity.
  - left. reflexivity.
  - reflexivity.
  - reflexivity.
Defined.

(** The example of the specification: a single malformed record leaves no
    entry, one diagnostic, and a report of the filename line alone. *)
Example malformed_record_alone :
  modinfo_do libc_ok cfg_default
    (mkModule "/lib/modules/x/foo.ko" "foo" (kmod_ok 1 [("parm", "bad-no-colon")]))
    world0 =
  (1, mkWorld ("filename:       /lib/modules/x/foo.ko" ++ nl)
        (malformed_diag ("parm", "bad-no-colon")) 0
        [Ev_get_info
           (mkModule "/lib/modules/x/foo.ko" "foo"
              (kmod_ok 1 [("parm", "bad-no-colon")]))]) /\
  fst (info_foreach libc_ok cfg_default [("parm", "bad-no-colon")] [] world0) =
    (loop_done, []).
Proof. split; reflexivity. Qed.

(** C7. In filtered mode on a field other than "filename", a module whose
    metadata is retrieved prints exactly the bare values of the pairs whose
    key equals the filter, in source order, each followed by the separator,
    and nothing reaches the error stream; when no key matches, nothing is
    printed and the module still returns success. *)
Theorem filtered_report (L : libc) (cfg : config) (f : string)
    (kmod : kmod_module) (r : N) (kvs : list (string * string)) (w : world) :
  field cfg = Some f ->
  f <> "filename" ->
  kmod_module_get_info kmod = kmod_ok r kvs ->
  modinfo_do L cfg kmod w =
    (Z.of_N r,
     mkWorld
       (stdout w ++
        concat_str
          (map (fun kv => snd kv ++ str1 (separator cfg))
             (filter (fun kv => String.eqb f (fst kv)) kvs)))
       (stderr w) (mallocs w) (calls w ++ [Ev_get_info kmod])) /\
  ((forall kv, In kv kvs -> fst kv <> f) ->
   stdout (snd (modinfo_do L cfg kmod w)) = stdout w /\
   stderr (snd (modinfo_do L cfg kmod w)) = stderr w /\
   0 <= fst (modinfo_do L cfg kmod w)).
Proof.
  intros Hf Hne Hinfo.
  apply String.eqb_neq in Hne.
  rewrite (modinfo_do_filtered L cfg f kmod r kvs w Hf Hne Hinfo).
  split; [reflexivity|].
  intros Hnone. cbn [fst snd stdout stderr].
  assert (filtered_lines cfg f kvs = []) as ->.
  { unfold filtered_lines.
    replace (filter (fun kv => streq f (fst kv)) kvs) with (@nil (string * string));
      [reflexivity|].
    symmetry. clear Hinfo. induction kvs as [|kv kvs IH]; [reflexivity|].
    cbn [filter].
    assert (streq f (fst kv) = false) as ->.
    { apply String.eqb_neq. intros Heq. apply (Hnone kv); [now left | now symmetry]. }
    apply IH. intros kv' Hin. apply Hnone. now right. }
  cbn [concat_str]. rewrite str_app_nil_r. repeat split. lia.
Qed.

Lemma filtered_report_witness :
  field (cfg_field "author") = Some "author" /\
  "author" <> "filename" /\
  kmod_module_get_info foo_ko = kmod_ok 3 foo_info /\
  modinfo_do libc_ok (cfg_field "author") foo_ko world0 =
    (Z.of_N 3,
     mkWorld
       (stdout world0 ++
        concat_str
          (map (fun kv => snd kv ++ str1 (separator (cfg_field "author")))
             (filter (fun kv => String.eqb "author" (fst kv)) foo_info)))
       (stderr world0) (mallocs world0) (calls world0 ++ [Ev_get_info foo_ko])) /\
  ((forall kv, In kv foo_info -> fst kv <> "author") ->
   stdout (snd (modinfo_do libc_ok (cfg_field "author") foo_ko world0)) = stdout world0 /\
   stderr (snd (modinfo_do libc_ok (cfg_field "author") foo_ko world0)) = stderr world0 /\
   0 <= fst (modinfo_do libc_ok (cfg_field "author") foo_ko world0)).
Proof.
  split; [reflexivity|]. split; [discriminate|]. split; [reflexivity|].
  apply (filtered_report libc_ok (cfg_field "author") "author" foo_ko 3 foo_info world0).
  - reflexivity.
  - discriminate.
  - reflexivity.
Defined.

(** The example of the specification: the filter "author" prints the one
    value. *)
Example filtered_author :
  stdout (snd (modinfo_do libc_ok (cfg_field "author") foo_ko world0)) = "A. One" ++ nl.
Proof. reflexivity. Qed.

(** C8. With the filter "filename", [modinfo_do] prints the path of the
    module and the separator, returns 0 and does nothing else: the error
    stream, the allocator and the libkmod calls are as they were, whatever
    the module holds. *)
Theorem filename_filter_one_line (L : libc) (sep : ascii)
    (kmod : kmod_module) (w : world) :
  modinfo_do L (mkConfig sep (Some "filename")) kmod w =
    (0, mkWorld (stdout w ++ kmod_module_get_path kmod ++ str1 sep)
                (stderr w) (mallocs w) (calls w)).
Proof. reflexivity. Qed.

Lemma forallb_module_ok_filename (cfg : config) (l : list kmod_module) :
  filename_filter cfg = true -> forallb (module_ok cfg) l = true.
Proof.
  intros Hf. apply forallb_forall. intros kmod _.
  unfold module_ok. now rewrite Hf.
Qed.

(** C9. With the filter "filename", [kmod_module_get_info] is not called:
    [modinfo_do] returns 0 for every module and leaves the trace of libkmod
    calls and the error stream untouched, also for a module whose metadata
    cannot be retrieved; a whole run makes the resolving calls only, and its
    exit status is zero exactly when every identifier resolves. *)
Theorem filename_filter_skips_retrieval (L : libc) (sep : ascii) :
  let cfg := mkConfig sep (Some "filename") in
  (forall kmod w,
     fst (modinfo_do L cfg kmod w) = 0 /\
     calls (snd (modinfo_do L cfg kmod w)) = calls w /\
     stderr (snd (modinfo_do L cfg kmod w)) = stderr w /\
     stdout (snd (modinfo_do L cfg kmod w)) =
       stdout w ++ kmod_module_get_path kmod ++ str1 sep) /\
  (forall ctx args w,
     calls (snd (main L cfg ctx args w)) =
       (calls w ++ map (resolve_event ctx) args)%list /\
     (fst (main L cfg ctx args w) = EXIT_SUCCESS <->
        forall name, In name args -> resolves ctx name = true)).
Proof.
  cbv zeta. split.
  - intros kmod w. repeat split; reflexivity.
  - intros ctx args w.
    destruct (main_status L (mkConfig sep (Some "filename")) ctx args w) as [-> ->].
    split.
    + f_equal. rewrite flat_map_concat_map.
      induction args as [|name args IH]; [reflexivity|].
      cbn [map concat]. rewrite IH. unfold identifier_calls at 1.
      assert (Hmods : forall l : list kmod_module,
                 flat_map (module_calls (mkConfig sep (Some "filename"))) l = []).
      { induction l as [|m l IHl]; [reflexivity | exact IHl]. }
      destruct (stat_is_reg ctx name).
      * destruct (kmod_module_new_from_path ctx name); reflexivity.
      * destruct (kmod_module_new_from_lookup ctx name); [rewrite Hmods|]; reflexivity.
    + rewrite <- forallb_forall.
      assert (Hsame : forallb (identifier_ok (mkConfig sep (Some "filename")) ctx) args =
                      forallb (resolves ctx) args).
      { induction args as [|name args IH]; [reflexivity|].
        cbn [forallb]. rewrite IH. f_equal.
        unfold identifier_ok, resolves.
        destruct (stat_is_reg ctx name).
        - destruct (kmod_module_new_from_path ctx name); reflexivity.
        - destruct (kmod_module_new_from_lookup ctx name) as [r l|e]; [|reflexivity].
          now apply forallb_module_ok_filename. }
      rewrite Hsame.
      destruct (forallb (resolves ctx) args); unfold EXIT_SUCCESS, EXIT_FAILURE;
        split; intros; congruence.
Qed.

(** A module whose metadata cannot be retrieved, under the "filename"
    filter: the path is printed and the run succeeds. *)
Example filename_of_broken_module :
  main libc_ok (cfg_field "filename") ctx_x ["broken.ko"] world0 =
    (EXIT_SUCCESS,
     mkWorld ("/lib/modules/x/broken.ko" ++ nl) EmptyString 0
             [Ev_new_from_path "broken.ko"]).
Proof. reflexivity. Qed.

(** C10. With the filter "parm" or "parmtype" the values of the records
    with that key are printed as they are, name and ':' included, one line
    each in source order; no table is built (the loop ends with the empty
    list and asks for no memory) and no value is checked for its ':': the
    error stream is as it was. *)
Theorem parm_filter_raw_values (L : libc) (cfg : config) (f : string)
    (kmod : kmod_module) (r : N) (kvs : list (string * string)) (w : world) :
  field cfg = Some f ->
  f = "parm" \/ f = "parmtype" ->
  kmod_module_get_info kmod = kmod_ok r kvs ->
  stdout (snd (modinfo_do L cfg kmod w)) =
    stdout w ++
    concat_str
      (map (fun kv => snd kv ++ str1 (separator cfg))
         (filter (fun kv => String.eqb f (fst kv)) kvs)) /\
  stderr (snd (modinfo_do L cfg kmod w)) = stderr w /\
  mallocs (snd (modinfo_do L cfg kmod w)) = mallocs w /\
  (forall w0, fst (info_foreach L cfg kvs [] w0) = (loop_done, [])).
Proof.
  intros Hf Hkey Hinfo.
  assert (Hne : streq f "filename" = false).
  { destruct Hkey as [-> | ->]; reflexivity. }
  rewrite (modinfo_do_filtered L cfg f kmod r kvs w Hf Hne Hinfo).
  repeat split.
  intros w0. now rewrite (info_foreach_filtered L cfg f kvs [] w0 Hf).
Qed.

Lemma parm_filter_raw_values_witness :
  field (cfg_field "parm") = Some "parm" /\
  ("parm" = "parm" \/ "parm" = "parmtype") /\
  kmod_module_get_info bad_ko = kmod_ok 3 bad_info /\
  stdout (snd (modinfo_do libc_ok (cfg_field "parm") bad_ko world0)) =
    stdout world0 ++
    concat_str
      (map (fun kv => snd kv ++ str1 (separator (cfg_field "parm")))
         (filter (fun kv => String.eqb "parm" (fst kv)) bad_info)) /\
  stderr (snd (modinfo_do libc_ok (cfg_field "parm") bad_ko world0)) = stderr world0 /\
  mallocs (snd (modinfo_do libc_ok (cfg_field "parm") bad_ko world0)) = mallocs world0 /\
  (forall w0, fst (info_foreach libc_ok (cfg_field "parm") bad_info [] w0) = (loop_done, [])).
Proof.
  split; [reflexivity|]. split; [left; reflexivity|]. split; [reflexivity|].
  apply (parm_filter_raw_values libc_ok (cfg_field "parm") "parm" bad_ko 3 bad_info world0).
  - reflexivity.
  - left. reflexivity.
  - reflexivity.
Defined.

(** A malformed "parm" value under the filter "parm": printed as it is,
    without a diagnostic. *)
Example parm_filter_malformed_value :
  modinfo_do libc_ok (cfg_field "parm") bad_ko world0 =
    (3, mkWorld ("bad-no-colon" ++ nl) EmptyString 0 [Ev_get_info bad_ko]).
Proof. reflexivity. Qed.

(** * Further properties of the code *)

(** ** [add_param] *)

Lemma param_matches_iff (e : struct_param) (name : string) (namelen : Z) :
  param_matches e name namelen = true <->
  p_namelen e = namelen /\
  take (Z.to_nat namelen) (p_name e) = take (Z.to_nat namelen) name.
Proof.
  unfold param_matches, memcmp_eq.
  now rewrite andb_true_iff, Z.eqb_eq, String.eqb_eq.
Qed.

Lemma param_matches_key (e : struct_param) (n1 n2 : string) (len : Z) :
  memcmp_eq n1 n2 len = true ->
  param_matches e n1 len = param_matches e n2 len.
Proof.
  unfold param_matches, memcmp_eq. intros H. apply String.eqb_eq in H.
  now rewrite H.
Qed.

Lemma find_param_key (n1 n2 : string) (len : Z) (params : list struct_param) :
  memcmp_eq n1 n2 len = true ->
  find_param n1 len params = find_param n2 len params.
Proof.
  intros H. induction params as [|e params IH]; [reflexivity|].
  cbn [find_param]. now rewrite (param_matches_key e n1 n2 len H), IH.
Qed.

Lemma find_param_alter (f : struct_param -> struct_param) (k : nat)
    (name : string) (namelen : Z) (params : list struct_param) :
  (forall e, p_name (f e) = p_name e /\ p_namelen (f e) = p_namelen e) ->
  find_param name namelen (alter_at f k params) = find_param name namelen params.
Proof.
  intros Hf. revert k.
  induction params as [|e params IH]; intros [|k]; cbn [alter_at find_param];
    try reflexivity.
  - unfold param_matches. now destruct (Hf e) as [-> ->].
  - now rewrite IH.
Qed.

Lemma find_param_nth (name : string) (namelen : Z) (params : list struct_param)
    (i : nat) :
  find_param name namelen params = Some i ->
  exists e, nth_error params i = Some e /\ param_matches e name namelen = true.
Proof.
  revert i. induction params as [|e params IH]; intros i; cbn [find_param];
    [discriminate|].
  destruct (param_matches e name namelen) eqn:Hm.
  - intros [= <-]. now exists e.
  - destruct (find_param name namelen params) as [j|]; [|discriminate].
    intros [= <-]. apply (IH j eq_refl).
Qed.

Lemma nth_error_alter_eq (f : struct_param -> struct_param) (k : nat)
    (params : list struct_param) (e : struct_param) :
  nth_error params k = Some e ->
  nth_error (alter_at f k params) k = Some (f e).
Proof.
  revert k. induction params as [|x params IH]; intros [|k]; cbn;
    try discriminate.
  - now intros [= ->].
  - apply IH.
Qed.

Lemma nth_error_alter_ne (f : struct_param -> struct_param) (k j : nat)
    (params : list struct_param) :
  k <> j -> nth_error (alter_at f k params) j = nth_error params j.
Proof.
  revert k j. induction params as [|x params IH]; intros [|k] [|j] H; cbn;
    try reflexivity; try congruence.
  apply IH. congruence.
Qed.

(** With memory at hand [add_param] returns an entry and leaves [upsert]
    of the list, whatever the world. *)
Lemma add_param_upsert (L : libc) name namelen param paramlen type typelen
    (params : list struct_param) (w : world) :
  no_oom L ->
  snd (fst (add_param L name namelen param paramlen type typelen params w)) =
    upsert name namelen (store_fields param paramlen type typelen) params /\
  fst (fst (add_param L name namelen param paramlen type typelen params w)) <> None.
Proof.
  intros Hmem. unfold add_param, upsert.
  destruct (find_param name namelen params) as [i|] eqn:Hfind.
  - cbn. split; [reflexivity|].
    destruct (find_param_nth _ _ _ _ Hfind) as (e & He & _).
    now rewrite (nth_error_alter_eq _ _ _ _ He).
  - unfold bind, malloc. rewrite Hmem. cbn. split; [reflexivity | discriminate].
Qed.

(** X1. Insert, then look up: the entry that [add_param] returns is the
    one the search loop finds for the same name afterwards. *)
Theorem add_param_then_find (L : libc) (name : string) (namelen : Z)
    param paramlen type typelen (params params' : list struct_param)
    (it : struct_param) (w w' : world) :
  add_param L name namelen param paramlen type typelen params w =
    ((Some it, params'), w') ->
  exists i, find_param name namelen params' = Some i /\
            nth_error params' i = Some it.
Proof.
  unfold add_param.
  destruct (find_param name namelen params) as [i|] eqn:Hfind.
  - unfold ret. intros [= Hit <- _]. exists i. split; [|exact Hit].
    rewrite find_param_alter; [exact Hfind|].
    intros e. apply store_fields_name.
  - unfold bind, malloc. destruct (malloc_ok L (mallocs w)); unfold ret;
      [|discriminate].
    intros [= <- <- _]. exists 0%nat. split; [|reflexivity].
    cbn [find_param].
    assert (param_matches
              (store_fields param paramlen type typelen
                 (mkParam name None None namelen 0 0)) name namelen = true) as ->;
      [|reflexivity].
    apply param_matches_iff.
    destruct (store_fields_name param paramlen type typelen
                (mkParam name None None namelen 0 0)) as [-> ->].
    split; reflexivity.
Qed.

Lemma add_param_then_find_witness :
  add_param libc_ok "debug:bool" 5 None 0 (Some "bool") 4
      [mkParam "level:int" None (Some "int") 5 0 3] world0 =
    ((Some (mkParam "debug:bool" None (Some "bool") 5 0 4),
      [mkParam "debug:bool" None (Some "bool") 5 0 4;
       mkParam "level:int" None (Some "int") 5 0 3]),
     mkWorld EmptyString EmptyString 1 []) /\
  exists i,
    find_param "debug:bool" 5
      [mkParam "debug:bool" None (Some "bool") 5 0 4;
       mkParam "level:int" None (Some "int") 5 0 3] = Some i /\
    nth_error
      [mkParam "debug:bool" None (Some "bool") 5 0 4;
       mkParam "level:int" None (Some "int") 5 0 3] i =
      Some (mkParam "debug:bool" None (Some "bool") 5 0 4).
Proof.
  split; [reflexivity|].
  apply (add_param_then_find libc_ok "debug:bool" 5 None 0 (Some "bool") 4
           [mkParam "level:int" None (Some "int") 5 0 3]
           [mkParam "debug:bool" None (Some "bool") 5 0 4;
            mkParam "level:int" None (Some "int") 5 0 3]
           (mkParam "debug:bool" None (Some "bool") 5 0 4)
           world0 (mkWorld EmptyString EmptyString 1 [])).
  reflexivity.
Defined.

(** X2. [add_param] leaves the entries of the other parameters alone: an
    entry that the search loop found for another name, and that does not
    match the name being added, is still found, unchanged, afterwards. *)
Theorem add_param_keeps_other_entries (L : libc) (name : string) (namelen : Z)
    param paramlen type typelen (params params' : list struct_param)
    (it : struct_param) (w w' : world)
    (name' : string) (namelen' : Z) (j : nat) (e : struct_param) :
  add_param L name namelen param paramlen type typelen params w =
    ((Some it, params'), w') ->
  find_param name' namelen' params = Some j ->
  nth_error params j = Some e ->
  param_matches e name namelen = false ->
  exists j', find_param name' namelen' params' = Some j' /\
             nth_error params' j' = Some e.
Proof.
  intros Hadd Hfind He Hother.
  destruct (find_param_nth _ _ _ _ Hfind) as (e0 & He0 & Hm).
  rewrite He in He0. injection He0 as <-.
  unfold add_param in Hadd.
  destruct (find_param name namelen params) as [i|] eqn:Hfind0.
  - unfold ret in Hadd. injection Hadd as _ <- _.
    exists j. split.
    + rewrite find_param_alter; [exact Hfind|]. intros x. apply store_fields_name.
    + rewrite nth_error_alter_ne; [exact He|].
      intros ->. destruct (find_param_nth _ _ _ _ Hfind0) as (e1 & He1 & Hm1).
      congruence.
  - unfold bind, malloc in Hadd.
    destruct (malloc_ok L (mallocs w)); unfold ret in Hadd; [|discriminate].
    injection Hadd as _ <- _.
    exists (S j). split; [|exact He].
    cbn [find_param]. rewrite Hfind.
    match goal with
    | |- (if ?b then _ else _) = _ => destruct b eqn:Hhead; [|reflexivity]
    end.
    exfalso.
    apply param_matches_iff in Hhead. apply param_matches_iff in Hm.
    destruct (store_fields_name param paramlen type typelen
                (mkParam name None None namelen 0 0)) as [Hn Hl].
    rewrite Hn, Hl in Hhead. cbn [p_name p_namelen] in Hhead.
    destruct Hhead as [Hlen Htake], Hm as [Hlen' Htake'].
    assert (param_matches e name namelen = true); [|congruence].
    apply param_matches_iff. subst namelen'. split; [congruence|].
    congruence.
Qed.

Lemma add_param_keeps_other_entries_witness :
  add_param libc_ok "debug:bool" 5 None 0 (Some "bool") 4
      [mkParam "level:int" None (Some "int") 5 0 3] world0 =
    ((Some (mkParam "debug:bool" None (Some "bool") 5 0 4),
      [mkParam "debug:bool" None (Some "bool") 5 0 4;
       mkParam "level:int" None (Some "int") 5 0 3]),
     mkWorld EmptyString EmptyString 1 []) /\
  find_param "level:uint" 5 [mkParam "level:int" None (Some "int") 5 0 3] = Some 0%nat /\
  nth_error [mkParam "level:int" None (Some "int") 5 0 3] 0 =
    Some (mkParam "level:int" None (Some "int") 5 0 3) /\
  param_matches (mkParam "level:int" None (Some "int") 5 0 3) "debug:bool" 5 = false /\
  exists j',
    find_param "level:uint" 5
      [mkParam "debug:bool" None (Some "bool") 5 0 4;
       mkParam "level:int" None (Some "int") 5 0 3] = Some j' /\
    nth_error
      [mkParam "debug:bool" None (Some "bool") 5 0 4;
       mkParam "level:int" None (Some "int") 5 0 3] j' =
      Some (mkParam "level:int" None (Some "int") 5 0 3).
Proof.
  split; [reflexivity|]. split; [reflexivity|].
  split; [reflexivity|]. split; [reflexivity|].
  apply (add_param_keeps_other_entries libc_ok "debug:bool" 5 None 0 (Some "bool") 4
           [mkParam "level:int" None (Some "int") 5 0 3]
           [mkParam "debug:bool" None (Some "bool") 5 0 4;
            mkParam "level:int" None (Some "int") 5 0 3]
           (mkParam "debug:bool" None (Some "bool") 5 0 4)
           world0 (mkWorld EmptyString EmptyString 1 [])
           "level:uint" 5 0%nat (mkParam "level:int" None (Some "int") 5 0 3));
    reflexivity.
Defined.

Lemma alter_at_twice (f g : struct_param -> struct_param) (k : nat)
    (params : list struct_param) :
  alter_at g k (alter_at f k params) = alter_at (fun e => g (f e)) k params.
Proof.
  revert k. induction params as [|e params IH]; intros [|k]; cbn;
    try reflexivity.
  now rewrite IH.
Qed.

Lemma alter_at_ext (f g : struct_param -> struct_param) (k : nat)
    (params : list struct_param) :
  (forall e, f e = g e) -> alter_at f k params = alter_at g k params.
Proof.
  intros H. revert k. induction params as [|e params IH]; intros [|k]; cbn;
    try reflexivity.
  - now rewrite H.
  - now rewrite IH.
Qed.

Lemma memcmp_eq_sym (a b : string) (n : Z) : memcmp_eq a b n = memcmp_eq b a n.
Proof. unfold memcmp_eq. apply String.eqb_sym. Qed.

Lemma memcmp_eq_refl (a : string) (n : Z) : memcmp_eq a a n = true.
Proof. unfold memcmp_eq. apply String.eqb_refl. Qed.

(** X3. [add_param] itself merges the two fields of a parameter in either
    order: storing a description and then a type under the same name, or
    the type first, leaves tables that print the same lines, with one entry
    that holds both fields. *)
Theorem add_param_merge_commutes (L : libc) (cfg : config)
    (n1 n2 : string) (len : Z) (d : string) (dl : Z) (t : string) (tl : Z)
    (params : list struct_param) (w1 w2 w3 w4 : world) :
  no_oom L ->
  0 <= len ->
  memcmp_eq n1 n2 len = true ->
  let ps_a := snd (fst (add_param L n1 len (Some d) dl None 0 params w1)) in
  let ps_ab := snd (fst (add_param L n2 len None 0 (Some t) tl ps_a w2)) in
  let ps_b := snd (fst (add_param L n2 len None 0 (Some t) tl params w3)) in
  let ps_ba := snd (fst (add_param L n1 len (Some d) dl None 0 ps_b w4)) in
  map (param_line cfg) ps_ab = map (param_line cfg) ps_ba /\
  exists e, In e ps_ab /\
            p_param e = Some d /\ p_paramlen e = dl /\
            p_type e = Some t /\ p_typelen e = tl.
Proof.
  intros Hmem Hlen Hkey. cbv zeta.
  rewrite !(fun a b c d e f g h => proj1 (add_param_upsert L a b c d e f g h Hmem)).
  set (fA := store_fields (Some d) dl None 0).
  set (fB := store_fields None 0 (Some t) tl).
  assert (HfA : forall e, p_name (fA e) = p_name e /\ p_namelen (fA e) = p_namelen e)
    by (intros e; apply store_fields_name).
  assert (HfB : forall e, p_name (fB e) = p_name e /\ p_namelen (fB e) = p_namelen e)
    by (intros e; apply store_fields_name).
  assert (Hcomm : forall e, fB (fA e) = fA (fB e)) by (intros []; reflexivity).
  assert (Hboth : forall e, p_param (fB (fA e)) = Some d /\ p_paramlen (fB (fA e)) = dl /\
                            p_type (fB (fA e)) = Some t /\ p_typelen (fB (fA e)) = tl)
    by (intros []; cbn; auto).
  pose proof (find_param_key n1 n2 len params Hkey) as Hsame.
  destruct (find_param n1 len params) as [i|] eqn:Hfind.
  - assert (upsert n1 len fA params = alter_at fA i params) as ->
      by (unfold upsert; now rewrite Hfind).
    assert (upsert n2 len fB params = alter_at fB i params) as ->
      by (unfold upsert; now rewrite <- Hsame).
    assert (upsert n2 len fB (alter_at fA i params) =
            alter_at (fun e => fB (fA e)) i params) as ->.
    { unfold upsert. rewrite find_param_alter, <- Hsame by assumption.
      apply alter_at_twice. }
    assert (upsert n1 len fA (alter_at fB i params) =
            alter_at (fun e => fB (fA e)) i params) as ->.
    { unfold upsert. rewrite find_param_alter, Hfind by assumption.
      rewrite alter_at_twice. apply alter_at_ext. intros e. symmetry. apply Hcomm. }
    split; [reflexivity|].
    destruct (find_param_nth _ _ _ _ Hfind) as (e & He & _).
    exists (fB (fA e)). split; [|apply Hboth].
    apply (nth_error_In _ i).
    now apply (nth_error_alter_eq (fun e => fB (fA e))).
  - assert (upsert n1 len fA params = fA (mkParam n1 None None len 0 0) :: params) as ->
      by (unfold upsert; now rewrite Hfind).
    assert (upsert n2 len fB params = fB (mkParam n2 None None len 0 0) :: params) as ->
      by (unfold upsert; now rewrite <- Hsame).
    assert (upsert n2 len fB (fA (mkParam n1 None None len 0 0) :: params) =
            fB (fA (mkParam n1 None None len 0 0)) :: params) as ->.
    { unfold upsert. cbn [find_param].
      assert (param_matches (fA (mkParam n1 None None len 0 0)) n2 len = true) as ->;
        [|reflexivity].
      apply param_matches_iff. destruct (HfA (mkParam n1 None None len 0 0)) as [-> ->].
      cbn. split; [reflexivity|]. now apply String.eqb_eq. }
    assert (upsert n1 len fA (fB (mkParam n2 None None len 0 0) :: params) =
            fA (fB (mkParam n2 None None len 0 0)) :: params) as ->.
    { unfold upsert. cbn [find_param].
      assert (param_matches (fB (mkParam n2 None None len 0 0)) n1 len = true) as ->;
        [|reflexivity].
      apply param_matches_iff. destruct (HfB (mkParam n2 None None len 0 0)) as [-> ->].
      cbn. split; [reflexivity|]. symmetry. now apply String.eqb_eq. }
    cbn [map]. split.
    + f_equal. unfold param_line, entry_name, fA, fB, store_fields. cbn.
      unfold prec_star at 1 4.
      destruct (Z.ltb_spec len 0) as [Hneg|_]; [lia|].
      apply String.eqb_eq in Hkey. now rewrite Hkey.
    + eexists. split; [left; reflexivity|]. apply Hboth.
Qed.

Lemma add_param_merge_commutes_witness :
  no_oom libc_ok /\
  0 <= 5 /\
  memcmp_eq "debug:enable debug" "debug:bool" 5 = true /\
  let ps_a := snd (fst (add_param libc_ok "debug:enable debug" 5
                          (Some "enable debug") 12 None 0 [] world0)) in
  let ps_ab := snd (fst (add_param libc_ok "debug:bool" 5 None 0 (Some "bool") 4
                           ps_a world0)) in
  let ps_b := snd (fst (add_param libc_ok "debug:bool" 5 None 0 (Some "bool") 4
                          [] world0)) in
  let ps_ba := snd (fst (add_param libc_ok "debug:enable debug" 5
                           (Some "enable debug") 12 None 0 ps_b world0)) in
  map (param_line cfg_default) ps_ab = map (param_line cfg_default) ps_ba /\
  exists e, In e ps_ab /\
            p_param e = Some "enable debug" /\ p_paramlen e = 12 /\
            p_type e = Some "bool" /\ p_typelen e = 4.
Proof.
  split; [intros n; reflexivity|]. split; [lia|]. split; [reflexivity|].
  apply (add_param_merge_commutes libc_ok cfg_default
           "debug:enable debug" "debug:bool" 5 "enable debug" 12 "bool" 4
           [] world0 world0 world0 world0).
  - intros n. reflexivity.
  - lia.
  - reflexivity.
Defined.

(** ** The lines of the default report *)

Lemma str_length_app (a b : string) :
  String.length (a ++ b) = (String.length a + String.length b)%nat.
Proof. induction a as [|x a IH]; cbn; [reflexivity | now rewrite IH]. Qed.

Lemma length_spaces (n : nat) : String.length (spaces n) = n.
Proof. induction n as [|n IH]; cbn; [reflexivity | now rewrite IH]. Qed.

Lemma length_pad_right (w : nat) (s : string) :
  (String.length s <= w)%nat -> String.length (pad_right w s) = w.
Proof. intros H. unfold pad_right. rewrite str_length_app, length_spaces. lia. Qed.

Lemma plain_line_short_key (cfg : config) (kv : string * string) :
  separator cfg <> NUL ->
  (String.length (fst kv) <= 15)%nat ->
  plain_line cfg kv =
    pad_right 16 (fst kv ++ ":") ++ snd kv ++ str1 (separator cfg).
Proof.
  intros Hsep Hlen. unfold plain_line, pad_right, strlen.
  apply Ascii.eqb_neq in Hsep. rewrite Hsep.
  rewrite !str_app_assoc, str_length_app. cbn [String.length append].
  replace (Z.abs_nat (15 - Z.of_nat (String.length (fst kv))))
    with (16 - (String.length (fst kv) + 1))%nat by lia.
  reflexivity.
Qed.

Lemma plain_line_long_key (cfg : config) (kv : string * string) :
  separator cfg <> NUL ->
  (15 < String.length (fst kv))%nat ->
  plain_line cfg kv =
    fst kv ++ ":" ++ spaces (String.length (fst kv) - 15) ++ snd kv
      ++ str1 (separator cfg).
Proof.
  intros Hsep Hlen. unfold plain_line, strlen.
  apply Ascii.eqb_neq in Hsep. rewrite Hsep.
  replace (Z.abs_nat (15 - Z.of_nat (String.length (fst kv))))
    with (String.length (fst kv) - 15)%nat by lia.
  reflexivity.
Qed.

Lemma plain_lines_app (cfg : config) (l1 l2 : list (string * string)) :
  plain_lines cfg (l1 ++ l2) = (plain_lines cfg l1 ++ plain_lines cfg l2)%list.
Proof. unfold plain_lines. now rewrite filter_app, map_app. Qed.

(** X4. In default mode with a separator other than NUL, when no allocation
    fails, every ordinary pair with a key of at most 15 bytes is printed, at
    its place in the report and whatever the other keys of the module are,
    as the key and its ':' padded to exactly 16 columns, then the value and
    the separator, so that its value starts in the column of the path of
    the first line; a pair with a longer key is printed with as many spaces
    after the ':' as the key has bytes beyond 15. *)
Theorem default_lines_aligned (L : libc) (cfg : config) (kmod : kmod_module)
    (r : N) (kvs : list (string * string)) (w : world) :
  field cfg = None ->
  separator cfg <> NUL ->
  no_oom L ->
  kmod_module_get_info kmod = kmod_ok r kvs ->
  exists table,
    (forall w0, fst (info_foreach L cfg kvs [] w0) = (loop_done, table)) /\
    stdout (snd (modinfo_do L cfg kmod w)) =
      stdout w
        ++ (pad_right 16 "filename:" ++ kmod_module_get_path kmod
              ++ str1 (separator cfg))
        ++ concat_str
             (map (fun kv =>
                     if (String.length (fst kv) <=? 15)%nat
                     then pad_right 16 (fst kv ++ ":") ++ snd kv
                            ++ str1 (separator cfg)
                     else fst kv ++ ":" ++ spaces (String.length (fst kv) - 15)
                            ++ snd kv ++ str1 (separator cfg))
                (filter (fun kv => negb (is_parm_key (fst kv))) kvs))
        ++ concat_str (map (param_line cfg) table) /\
    (forall pre key value post,
       kvs = (pre ++ (key, value) :: post)%list ->
       is_parm_key key = false ->
       (String.length key <= 15)%nat ->
       stdout (snd (modinfo_do L cfg kmod w)) =
         stdout w ++ filename_line cfg kmod
           ++ concat_str (plain_lines cfg pre)
           ++ (pad_right 16 (key ++ ":") ++ value ++ str1 (separator cfg))
           ++ concat_str (plain_lines cfg post)
           ++ concat_str (map (param_line cfg) table)) /\
    (forall key, (String.length key <= 15)%nat ->
                 String.length (pad_right 16 (key ++ ":")) = 16%nat).
Proof.
  intros Hf Hsep Hmem Hinfo.
  destruct (modinfo_do_default L cfg kmod r kvs w Hf Hmem Hinfo)
    as (table & n & Hdo & Hloop & _ & _).
  exists table. split; [exact Hloop|]. rewrite Hdo. cbn [snd stdout].
  split; [|split].
  - assert (Hplain : plain_lines cfg kvs =
                     map (fun kv =>
                            if (String.length (fst kv) <=? 15)%nat
                            then pad_right 16 (fst kv ++ ":") ++ snd kv
                                   ++ str1 (separator cfg)
                            else fst kv ++ ":" ++ spaces (String.length (fst kv) - 15)
                                   ++ snd kv ++ str1 (separator cfg))
                       (filter (fun kv => negb (is_parm_key (fst kv))) kvs)).
    { unfold plain_lines. apply map_ext. intros kv.
      destruct (Nat.leb_spec (String.length (fst kv)) 15).
      - now apply plain_line_short_key.
      - now apply plain_line_long_key. }
    rewrite Hplain. reflexivity.
  - intros pre key value post -> Hkey Hlen.
    rewrite plain_lines_app, concat_str_app.
    change ((key, value) :: post) with ([(key, value)] ++ post)%list.
    rewrite plain_lines_app, concat_str_app.
    assert (Hone : concat_str (plain_lines cfg [(key, value)]) =
                   pad_right 16 (key ++ ":") ++ value ++ str1 (separator cfg)).
    { unfold plain_lines. cbn [filter fst]. rewrite Hkey.
      cbn [negb map concat_str]. rewrite str_app_nil_r.
      now apply (plain_line_short_key cfg (key, value)). }
    rewrite Hone. now rewrite !str_app_assoc.
  - intros key Hlen. apply length_pad_right.
    rewrite str_length_app. cbn. lia.
Qed.

Lemma default_lines_aligned_witness :
  field cfg_default = None /\
  separator cfg_default <> NUL /\
  no_oom libc_ok /\
  kmod_module_get_info dev_ko = kmod_ok 3 dev_info /\
  exists table,
    (forall w0, fst (info_foreach libc_ok cfg_default dev_info [] w0) = (loop_done, table)) /\
    stdout (snd (modinfo_do libc_ok cfg_default dev_ko world0)) =
      stdout world0
        ++ (pad_right 16 "filename:" ++ kmod_module_get_path dev_ko
              ++ str1 (separator cfg_default))
        ++ concat_str
             (map (fun kv =>
                     if (String.length (fst kv) <=? 15)%nat
                     then pad_right 16 (fst kv ++ ":") ++ snd kv
                            ++ str1 (separator cfg_default)
                     else fst kv ++ ":" ++ spaces (String.length (fst kv) - 15)
                            ++ snd kv ++ str1 (separator cfg_default))
                (filter (fun kv => negb (is_parm_key (fst kv))) dev_info))
        ++ concat_str (map (param_line cfg_default) table) /\
    (forall pre key value post,
       dev_info = (pre ++ (key, value) :: post)%list ->
       is_parm_key key = false ->
       (String.length key <= 15)%nat ->
       stdout (snd (modinfo_do libc_ok cfg_default dev_ko world0)) =
         stdout world0 ++ filename_line cfg_default dev_ko
           ++ concat_str (plain_lines cfg_default pre)
           ++ (pad_right 16 (key ++ ":") ++ value ++ str1 (separator cfg_default))
           ++ concat_str (plain_lines cfg_default post)
           ++ concat_str (map (param_line cfg_default) table)) /\
    (forall key, (String.length key <= 15)%nat ->
                 String.length (pad_right 16 (key ++ ":")) = 16%nat).
Proof.
  split; [reflexivity|]. split; [discriminate|].
  split; [intros n; reflexivity|]. split; [reflexivity|].
  apply (default_lines_aligned libc_ok cfg_default dev_ko 3 dev_info world0).
  - reflexivity.
  - discriminate.
  - intros n. reflexivity.
  - reflexivity.
Defined.

(** A module with a long key: the short keys around it are aligned all the
    same. *)
Example short_keys_next_to_a_long_key :
  stdout (snd (modinfo_do libc_ok cfg_default dev_ko world0)) =
    "filename:       /lib/modules/x/dev.ko" ++ nl ++
    "author:         X" ++ nl ++
    "supported_devices:  y" ++ nl ++
    "license:        GPL" ++ nl.
Proof. reflexivity. Qed.

(** X5. A key of more than 15 bytes is not truncated, and the negative
    width that [modinfo_do] hands to [%-*s] is taken by its absolute value:
    the ':' is followed by as many spaces as the key has bytes beyond 15. *)
Theorem long_key_padding (L : libc) (cfg : config) (key value : string)
    (rest : list (string * string)) (params : list struct_param) (w : world) :
  field cfg = None ->
  separator cfg <> NUL ->
  is_parm_key key = false ->
  (15 < String.length key)%nat ->
  info_foreach L cfg ((key, value) :: rest) params w =
    info_foreach L cfg rest params
      (mkWorld (stdout w ++ key ++ ":" ++ spaces (String.length key - 15)
                  ++ value ++ str1 (separator cfg))
               (stderr w) (mallocs w) (calls w)).
Proof.
  intros Hf Hsep Hkey Hlen. cbn [info_foreach]. rewrite Hf.
  change (streq key "parm" || streq key "parmtype") with (is_parm_key key).
  rewrite Hkey. apply Ascii.eqb_neq in Hsep. rewrite Hsep.
  unfold bind, printf. rewrite pad_right_star_empty. unfold strlen.
  replace (Z.abs_nat (15 - Z.of_nat (String.length key)))
    with (String.length key - 15)%nat by lia.
  reflexivity.
Qed.

Lemma long_key_padding_witness :
  field cfg_default = None /\
  separator cfg_default <> NUL /\
  is_parm_key "supported_devices" = false /\
  (15 < String.length "supported_devices")%nat /\
  info_foreach libc_ok cfg_default [("supported_devices", "x")] [] world0 =
    info_foreach libc_ok cfg_default [] []
      (mkWorld (stdout world0 ++ "supported_devices" ++ ":"
                  ++ spaces (String.length "supported_devices" - 15)
                  ++ "x" ++ str1 (separator cfg_default))
               (stderr world0) (mallocs world0) (calls world0)).
Proof.
  split; [reflexivity|]. split; [discriminate|]. split; [reflexivity|].
  split; [cbn; lia|].
  apply (long_key_padding libc_ok cfg_default "supported_devices" "x" [] [] world0).
  - reflexivity.
  - discriminate.
  - reflexivity.
  - cbn. lia.
Defined.

(** ** The table in closed form *)

Lemma is_parm_key_not_param (key : string) :
  is_parm_key key = true -> streq key "param" = false.
Proof.
  unfold is_parm_key, streq. intros H. apply orb_true_iff in H.
  destruct H as [H|H]; apply String.eqb_eq in H; subst key; reflexivity.
Qed.

(** With memory at hand the loop of [modinfo_do] in default mode leaves
    the fold of [table_step] over the pairs. *)
Lemma info_foreach_table (L : libc) (cfg : config)
    (kvs : list (string * string)) (params : list struct_param) (w : world) :
  field cfg = None ->
  no_oom L ->
  fst (info_foreach L cfg kvs params w) =
    (loop_done, fold_left table_step kvs params).
Proof.
  intros Hf Hmem. revert params w.
  induction kvs as [|[key value] kvs IH]; intros params w; [reflexivity|].
  cbn [info_foreach fold_left]. rewrite Hf. unfold table_step at 2. cbn [fst snd].
  change (streq key "parm" || streq key "parmtype") with (is_parm_key key).
  destruct (is_parm_key key) eqn:Hkey.
  - destruct (strchr value colon_char) as [i|].
    + rewrite (is_parm_key_not_param key Hkey). unfold bind at 1.
      match goal with
      | |- context [add_param ?a ?b ?c ?d ?e ?f ?g ?h ?x] =>
          destruct (add_param_upsert a b c d e f g h x Hmem) as [Hlist Hsome];
          destruct (add_param a b c d e f g h x) as [[[it|] ps] w']
      end; [|contradiction].
      cbn [fst snd] in *. subst ps. apply IH.
    + unfold bind, LOG. apply IH.
  - destruct (Ascii.eqb (separator cfg) NUL); unfold bind, printf; apply IH.
Qed.

Lemma alter_at_Forall (P : struct_param -> Prop)
    (f : struct_param -> struct_param) (k : nat) (params : list struct_param) :
  (forall e, P e -> P (f e)) ->
  Forall P params -> Forall P (alter_at f k params).
Proof.
  intros Hf Hall. revert k.
  induction Hall as [|e params He Hall IH]; intros [|k]; cbn; constructor; auto.
Qed.

Lemma store_type_typed (t : string) (e : struct_param) :
  entry_inv e -> p_param e = None ->
  typed_inv (store_fields None 0 (Some t) (strlen t) e).
Proof.
  intros Hinv Hnone. split; [now apply store_fields_inv|].
  cbn. split; [exact Hnone|]. exists t. split; reflexivity.
Qed.

Lemma table_step_typed (params : list struct_param) (kv : string * string) :
  Forall typed_inv params -> Forall typed_inv (table_step params kv).
Proof.
  intros Hall. unfold table_step.
  destruct (is_parm_key (fst kv)); [|exact Hall].
  destruct (strchr (snd kv) colon_char) as [i|] eqn:Hcolon; [|exact Hall].
  unfold upsert. destruct (find_param _ _ params).
  - apply alter_at_Forall; [|exact Hall].
    intros e (Hinv & Hnone & _). now apply store_type_typed.
  - constructor; [|exact Hall].
    apply store_type_typed; [|reflexivity].
    exists i. split; [exact Hcolon | reflexivity].
Qed.

Lemma typed_table_inv (params : list struct_param) :
  Forall typed_inv params -> table_inv params.
Proof. intros H. eapply Forall_impl; [|exact H]. now intros e [He _]. Qed.

Lemma type_of_alter_found (n v t : string) (tl : Z) (i k : nat)
    (params : list struct_param) :
  table_inv params ->
  strchr v colon_char = Some i ->
  find_param v (Z.of_nat i) params = Some k ->
  type_of n (alter_at (store_fields None 0 (Some t) tl) k params) =
    if String.eqb (take i v) n then Some t else type_of n params.
Proof.
  intros Hinv Hcolon. revert k.
  induction Hinv as [|e params He Hinv IH]; intros k; cbn [find_param];
    [discriminate|].
  destruct (param_matches e v (Z.of_nat i)) eqn:Hm.
  - intros [= <-]. cbn [alter_at type_of].
    rewrite store_fields_entry_name.
    apply (param_matches_name e v i He Hcolon) in Hm. rewrite Hm.
    destruct (String.eqb (take i v) n); reflexivity.
  - destruct (find_param v (Z.of_nat i) params) as [k'|]; [|discriminate].
    intros [= <-]. cbn [alter_at type_of]. rewrite (IH k' eq_refl).
    destruct (String.eqb (entry_name e) n) eqn:He'; [|reflexivity].
    apply String.eqb_eq in He'.
    assert (String.eqb (take i v) n = false) as ->; [|reflexivity].
    apply String.eqb_neq. intros Heq.
    assert (param_matches e v (Z.of_nat i) = true); [|congruence].
    apply (param_matches_name e v i He Hcolon). congruence.
Qed.

Lemma type_of_step (n : string) (params : list struct_param)
    (kv : string * string) :
  table_inv params ->
  type_of n (table_step params kv) =
    or_else (last_type n [kv]) (type_of n params).
Proof.
  intros Hinv. unfold table_step. cbn [last_type].
  destruct (is_parm_key (fst kv)); [|reflexivity].
  destruct (strchr (snd kv) colon_char) as [i|] eqn:Hcolon; [|reflexivity].
  unfold upsert.
  destruct (find_param (snd kv) (Z.of_nat i) params) as [k|] eqn:Hfind.
  - rewrite (type_of_alter_found n (snd kv) _ _ i k params Hinv Hcolon Hfind).
    destruct (String.eqb (take i (snd kv)) n); reflexivity.
  - cbn [type_of]. rewrite store_fields_entry_name.
    rewrite (entry_name_take (mkParam (snd kv) None None (Z.of_nat i) 0 0) i eq_refl).
    cbn [p_name].
    destruct (String.eqb (take i (snd kv)) n); reflexivity.
Qed.

Lemma type_of_fold (n : string) (kvs : list (string * string))
    (params : list struct_param) :
  Forall typed_inv params ->
  Forall typed_inv (fold_left table_step kvs params) /\
  type_of n (fold_left table_step kvs params) =
    or_else (last_type n kvs) (type_of n params).
Proof.
  revert params. induction kvs as [|kv kvs IH]; intros params Hall.
  - split; [exact Hall|]. cbn. now destruct (type_of n params).
  - cbn [fold_left].
    destruct (IH (table_step params kv) (table_step_typed params kv Hall))
      as [Hall' ->].
    split; [exact Hall'|].
    rewrite (type_of_step n params kv (typed_table_inv params Hall)).
    cbn [last_type]. destruct (last_type n kvs); reflexivity.
Qed.

Lemma type_of_In (params : list struct_param) (e : struct_param) :
  NoDup (map entry_name params) ->
  In e params ->
  type_of (entry_name e) params = Some (text_of (p_type e)).
Proof.
  induction params as [|x params IH]; cbn [map In type_of]; [tauto|].
  intros Hnd [->|Hin].
  - now rewrite String.eqb_refl.
  - inversion Hnd as [|? ? Hnotin Hnd']; subst.
    destruct (String.eqb (entry_name x) (entry_name e)) eqn:Heq.
    + apply String.eqb_eq in Heq. exfalso. apply Hnotin. rewrite Heq.
      now apply in_map.
    + now apply IH.
Qed.

Lemma take_all (s : string) : take (String.length s) s = s.
Proof. induction s as [|a s IH]; cbn; [reflexivity | now rewrite IH]. Qed.

Lemma param_line_typed (cfg : config) (e : struct_param) :
  typed_inv e ->
  param_line cfg e =
    pad_right 16 "parm:" ++ entry_name e ++ ":" ++ text_of (p_type e)
      ++ str1 (separator cfg).
Proof.
  intros (_ & Hnone & t & Ht & Hlen). unfold param_line.
  rewrite Hnone, Ht, Hlen. cbn [text_of]. unfold prec_star at 1, strlen.
  destruct (Z.ltb_spec (Z.of_nat (String.length t)) 0); [lia|].
  now rewrite Nat2Z.id, take_all, !str_app_assoc.
Qed.

(** X6. The default report in closed form, when no allocation fails: the
    filename line, the lines of the ordinary pairs in source order, and one
    line per distinct parameter name, most recently first-seen name first,
    made of the "parm:" label, the name, a ':' and the text after the ':'
    of the last "parm" or "parmtype" record of that name. *)
Theorem default_report_closed_form (L : libc) (cfg : config)
    (kmod : kmod_module) (r : N) (kvs : list (string * string)) (w : world) :
  field cfg = None ->
  no_oom L ->
  kmod_module_get_info kmod = kmod_ok r kvs ->
  stdout (snd (modinfo_do L cfg kmod w)) =
    stdout w ++ filename_line cfg kmod
      ++ concat_str (plain_lines cfg kvs)
      ++ concat_str
           (map (fun n => pad_right 16 "parm:" ++ n ++ ":"
                            ++ text_of (last_type n kvs)
                            ++ str1 (separator cfg))
              (rev (first_seen (record_names kvs)))).
Proof.
  intros Hf Hmem Hinfo.
  destruct (modinfo_do_default L cfg kmod r kvs w Hf Hmem Hinfo)
    as (table & n & Hdo & Hloop & _ & Hnames).
  rewrite Hdo. cbn [snd stdout]. do 3 f_equal.
  rewrite <- Hnames, map_map.
  assert (Htable : table = fold_left table_step kvs []).
  { specialize (Hloop world0).
    rewrite (info_foreach_table L cfg kvs [] world0 Hf Hmem) in Hloop.
    now injection Hloop. }
  assert (Hnd : NoDup (map entry_name table)).
  { rewrite Hnames. apply NoDup_rev, first_seen_from_NoDup. constructor. }
  f_equal. apply map_ext_in. intros e Hin.
  destruct (type_of_fold (entry_name e) kvs [] (Forall_nil _)) as [Hall Htype].
  rewrite <- Htable in Hall, Htype.
  rewrite (type_of_In table e Hnd Hin) in Htype.
  cbn [type_of] in Htype.
  rewrite param_line_typed
    by (eapply Forall_forall; [exact Hall | exact Hin]).
  destruct (last_type (entry_name e) kvs) as [t|]; cbn [or_else] in Htype;
    [|discriminate].
  injection Htype as ->. reflexivity.
Qed.

Lemma default_report_closed_form_witness :
  field cfg_default = None /\
  no_oom libc_ok /\
  kmod_module_get_info ab_ko = kmod_ok 3 ab_info /\
  stdout (snd (modinfo_do libc_ok cfg_default ab_ko world0)) =
    stdout world0 ++ filename_line cfg_default ab_ko
      ++ concat_str (plain_lines cfg_default ab_info)
      ++ concat_str
           (map (fun n => pad_right 16 "parm:" ++ n ++ ":"
                            ++ text_of (last_type n ab_info)
                            ++ str1 (separator cfg_default))
              (rev (first_seen (record_names ab_info)))).
Proof.
  split; [reflexivity|]. split; [intros n; reflexivity|]. split; [reflexivity|].
  apply (default_report_closed_form libc_ok cfg_default ab_ko 3 ab_info world0).
  - reflexivity.
  - intros n. reflexivity.
  - reflexivity.
Defined.

(** ** Failures inside one module *)

Lemma modinfo_do_info_err (L : libc) (cfg : config) (kmod : kmod_module)
    (errno : positive) (w : world) :
  kmod_module_get_info kmod = kmod_err errno ->
  modinfo_do_info L cfg kmod w =
    (Z.neg errno,
     mkWorld (stdout w)
       (stderr w ++ "ERROR: " ++ "Could not get modinfo from '"
          ++ kmod_module_get_name kmod ++ "': " ++ strerror L (Z.pos errno)
          ++ str1 newline)
       (mallocs w) (calls w ++ [Ev_get_info kmod])).
Proof. intros H. unfold modinfo_do_info, bind, call, LOG, ret. now rewrite H. Qed.

Lemma modinfo_do_err (L : libc) (cfg : config) (kmod : kmod_module)
    (errno : positive) (w : world) :
  filename_filter cfg = false ->
  kmod_module_get_info kmod = kmod_err errno ->
  modinfo_do L cfg kmod w =
    (Z.neg errno,
     mkWorld
       (stdout w ++ match field cfg with
                    | None => filename_line cfg kmod
                    | Some _ => EmptyString
                    end)
       (stderr w ++ "ERROR: " ++ "Could not get modinfo from '"
          ++ kmod_module_get_name kmod ++ "': " ++ strerror L (Z.pos errno)
          ++ str1 newline)
       (mallocs w) (calls w ++ [Ev_get_info kmod])).
Proof.
  intros Hfilter Hinfo. unfold modinfo_do, filename_filter in *.
  destruct (field cfg) as [f|].
  - rewrite Hfilter, (modinfo_do_info_err L cfg kmod errno w Hinfo).
    now rewrite str_app_nil_r.
  - unfold bind, printf.
    now rewrite (modinfo_do_info_err L cfg kmod errno _ Hinfo).
Qed.

(** X7. When the metadata of a module cannot be retrieved and the filter
    is not "filename", [modinfo_do] returns the negative errno, writes one
    diagnostic that names the module, and prints nothing but the filename
    line it had already printed in default mode. *)
Theorem retrieval_failure (L : libc) (cfg : config) (kmod : kmod_module)
    (errno : positive) (w : world) :
  filename_filter cfg = false ->
  kmod_module_get_info kmod = kmod_err errno ->
  fst (modinfo_do L cfg kmod w) < 0 /\
  modinfo_do L cfg kmod w =
    (Z.neg errno,
     mkWorld
       (stdout w ++ match field cfg with
                    | None => filename_line cfg kmod
                    | Some _ => EmptyString
                    end)
       (stderr w ++ "ERROR: " ++ "Could not get modinfo from '"
          ++ kmod_module_get_name kmod ++ "': " ++ strerror L (Z.pos errno)
          ++ str1 newline)
       (mallocs w) (calls w ++ [Ev_get_info kmod])).
Proof.
  intros Hfilter Hinfo.
  rewrite (modinfo_do_err L cfg kmod errno w Hfilter Hinfo).
  split; [cbn; lia | reflexivity].
Qed.

Lemma retrieval_failure_witness :
  filename_filter cfg_default = false /\
  kmod_module_get_info broken_ko = kmod_err 2 /\
  fst (modinfo_do libc_ok cfg_default broken_ko world0) < 0 /\
  modinfo_do libc_ok cfg_default broken_ko world0 =
    (Z.neg 2,
     mkWorld
       (stdout world0 ++ match field cfg_default with
                         | None => filename_line cfg_default broken_ko
                         | Some _ => EmptyString
                         end)
       (stderr world0 ++ "ERROR: " ++ "Could not get modinfo from '"
          ++ kmod_module_get_name broken_ko ++ "': " ++ strerror libc_ok (Z.pos 2)
          ++ str1 newline)
       (mallocs world0) (calls world0 ++ [Ev_get_info broken_ko])).
Proof.
  split; [reflexivity|]. split; [reflexivity|].
  apply (retrieval_failure libc_ok cfg_default broken_ko 2 world0); reflexivity.
Defined.

Lemma info_foreach_no_records (L : libc) (cfg : config)
    (kvs : list (string * string)) (params : list struct_param) (w : world) :
  field cfg = None ->
  Forall (fun kv => record_name kv = None) kvs ->
  info_foreach L cfg kvs params w =
    ((loop_done, params),
     mkWorld (stdout w ++ concat_str (plain_lines cfg kvs))
             (stderr w ++ concat_str (map malformed_diag (filter is_malformed kvs)))
             (mallocs w) (calls w)).
Proof.
  intros Hf Hall. revert w. unfold plain_lines.
  induction Hall as [|[key value] kvs Hkv Hall IH]; intros w.
  - destruct w; cbn. now rewrite !str_app_nil_r.
  - cbn [info_foreach]. rewrite Hf.
    change (streq key "parm" || streq key "parmtype") with (is_parm_key key).
    unfold record_name in Hkv. cbn [fst snd] in Hkv.
    cbn [filter map fst snd]. unfold is_malformed at 1. cbn [fst snd].
    destruct (is_parm_key key) eqn:Hkey; cbn [negb andb].
    + destruct (strchr value colon_char) as [i|]; [discriminate|].
      unfold bind, LOG. rewrite IH. cbn [stdout stderr mallocs calls map concat_str].
      do 2 f_equal. unfold malformed_diag. cbn [fst snd].
      now rewrite !str_app_assoc.
    + assert (Hplain : forall line, line = plain_line cfg (key, value) ->
                (printf line ;; info_foreach L cfg kvs params) w =
                ((loop_done, params),
                 mkWorld
                   (stdout w ++ concat_str
                      (plain_line cfg (key, value) ::
                       map (plain_line cfg)
                         (filter (fun kv => negb (is_parm_key (fst kv))) kvs)))
                   (stderr w ++ concat_str (map malformed_diag (filter is_malformed kvs)))
                   (mallocs w) (calls w))).
      { intros line ->. unfold bind, printf. rewrite IH.
        cbn [stdout stderr mallocs calls concat_str]. now rewrite !str_app_assoc. }
      destruct (Ascii.eqb (separator cfg) NUL) eqn:Hsep; apply Hplain;
        unfold plain_line; rewrite Hsep; cbn [fst snd]; [reflexivity|].
      now rewrite pad_right_star_empty.
Qed.

(** X8. When [malloc] fails for the first parameter record of a module, the
    default report is cut there: the ordinary pairs before it are printed,
    no parameter line and nothing of the pairs after it is, "Out of memory!"
    is reported, and [modinfo_do] still returns the non-negative result of
    [kmod_module_get_info]. *)
Theorem allocation_failure_cuts_report (L : libc) (cfg : config)
    (kmod : kmod_module) (r : N) (pre post : list (string * string))
    (key value : string) (i : nat) (w : world) :
  field cfg = None ->
  kmod_module_get_info kmod = kmod_ok r (pre ++ (key, value) :: post)%list ->
  Forall (fun kv => record_name kv = None) pre ->
  is_parm_key key = true ->
  strchr value colon_char = Some i ->
  malloc_ok L (mallocs w) = false ->
  modinfo_do L cfg kmod w =
    (Z.of_N r,
     mkWorld (stdout w ++ filename_line cfg kmod ++ concat_str (plain_lines cfg pre))
             (stderr w ++ concat_str (map malformed_diag (filter is_malformed pre))
                ++ "ERROR: " ++ "Out of memory!" ++ str1 newline)
             (S (mallocs w)) (calls w ++ [Ev_get_info kmod])).
Proof.
  intros Hf Hinfo Hpre Hkey Hcolon Hmem.
  unfold modinfo_do. rewrite Hf.
  unfold modinfo_do_info, bind at 1 2, printf, call. rewrite Hinfo.
  unfold bind at 1.
  rewrite info_foreach_app, (info_foreach_no_records L cfg pre [] _ Hf Hpre).
  cbn [info_foreach stdout stderr mallocs calls]. rewrite Hf.
  change (streq key "parm" || streq key "parmtype") with (is_parm_key key).
  rewrite Hkey, Hcolon, (is_parm_key_not_param key Hkey).
  unfold bind, add_param, malloc, LOG, ret.
  cbn [find_param]. unfold bind. cbv beta iota.
  cbn [fst snd mallocs stdout stderr calls]. rewrite Hmem.
  cbn [fst snd mallocs stdout stderr calls].
  unfold filename_line. now rewrite !str_app_assoc.
Qed.

Lemma allocation_failure_cuts_report_witness :
  field cfg_default = None /\
  kmod_module_get_info foo_ko =
    kmod_ok 3 ([("author", "A. One")] ++ ("parm", "debug:enable debug")
                 :: [("parmtype", "debug:bool")])%list /\
  Forall (fun kv => record_name kv = None) [("author", "A. One")] /\
  is_parm_key "parm" = true /\
  strchr "debug:enable debug" colon_char = Some 5%nat /\
  malloc_ok (mkLibc (fun _ => "error") (fun _ => false)) (mallocs world0) = false /\
  modinfo_do (mkLibc (fun _ => "error") (fun _ => false)) cfg_default foo_ko world0 =
    (Z.of_N 3,
     mkWorld (stdout world0 ++ filename_line cfg_default foo_ko
                ++ concat_str (plain_lines cfg_default [("author", "A. One")]))
             (stderr world0
                ++ concat_str (map malformed_diag
                                 (filter is_malformed [("author", "A. One")]))
                ++ "ERROR: " ++ "Out of memory!" ++ str1 newline)
             (S (mallocs world0)) (calls world0 ++ [Ev_get_info foo_ko])).
Proof.
  split; [reflexivity|]. split; [reflexivity|].
  split; [repeat constructor|]. split; [reflexivity|].
  split; [reflexivity|]. split; [reflexivity|].
  apply (allocation_failure_cuts_report (mkLibc (fun _ => "error") (fun _ => false))
           cfg_default foo_ko 3 [("author", "A. One")] [("parmtype", "debug:bool")]
           "parm" "debug:enable debug" 5 world0).
  - reflexivity.
  - reflexivity.
  - repeat constructor.
  - reflexivity.
  - reflexivity.
  - reflexivity.
Defined.

(** ** Reports in sequence *)

Lemma modinfo_do_frame (L : libc) (cfg : config) (kmod : kmod_module) (w : world) :
  no_oom L ->
  fst (modinfo_do L cfg kmod w) = fst (modinfo_do L cfg kmod world0) /\
  stdout (snd (modinfo_do L cfg kmod w)) = stdout w ++ module_report L cfg kmod /\
  stderr (snd (modinfo_do L cfg kmod w)) =
    stderr w ++ stderr (snd (modinfo_do L cfg kmod world0)).
Proof.
  intros Hmem. unfold module_report.
  destruct (filename_filter cfg) eqn:Hfilter.
  - unfold filename_filter in Hfilter. unfold modinfo_do.
    destruct (field cfg) as [f|]; [|discriminate]. rewrite Hfilter.
    cbn. now rewrite str_app_nil_r.
  - destruct (kmod_module_get_info kmod) as [r kvs|errno] eqn:Hinfo.
    + destruct (field cfg) as [f|] eqn:Hf.
      * unfold filename_filter in Hfilter. rewrite Hf in Hfilter.
        rewrite !(modinfo_do_filtered L cfg f kmod r kvs _ Hf Hfilter Hinfo).
        cbn. now rewrite str_app_nil_r.
      * destruct (modinfo_do_default L cfg kmod r kvs w Hf Hmem Hinfo)
          as (table & n & -> & Hloop & _).
        destruct (modinfo_do_default L cfg kmod r kvs world0 Hf Hmem Hinfo)
          as (table0 & n0 & -> & Hloop0 & _).
        specialize (Hloop world0). rewrite (Hloop0 world0) in Hloop.
        injection Hloop as <-. cbn. auto.
    + rewrite !(modinfo_do_err L cfg kmod errno _ Hfilter Hinfo). cbn. auto.
Qed.

(** X9. With memory at hand a report carries no state from what was
    printed before: [modinfo_do] returns the same value and appends the same
    text to [stdout] and to [stderr] in every world, so the same module
    reported twice gives the same bytes twice. *)
Theorem report_independent_of_world (L : libc) (cfg : config)
    (kmod : kmod_module) (w : world) :
  no_oom L ->
  fst (modinfo_do L cfg kmod w) = fst (modinfo_do L cfg kmod world0) /\
  stdout (snd (modinfo_do L cfg kmod w)) =
    stdout w ++ stdout (snd (modinfo_do L cfg kmod world0)) /\
  stderr (snd (modinfo_do L cfg kmod w)) =
    stderr w ++ stderr (snd (modinfo_do L cfg kmod world0)) /\
  stdout (snd (modinfo_do L cfg kmod (snd (modinfo_do L cfg kmod w)))) =
    stdout w ++ stdout (snd (modinfo_do L cfg kmod world0))
             ++ stdout (snd (modinfo_do L cfg kmod world0)).
Proof.
  intros Hmem.
  destruct (modinfo_do_frame L cfg kmod w Hmem) as (Hret & Hout & Herr).
  destruct (modinfo_do_frame L cfg kmod (snd (modinfo_do L cfg kmod w)) Hmem)
    as (_ & Hout2 & _).
  unfold module_report in *.
  repeat split; try assumption.
  now rewrite Hout2, Hout, str_app_assoc.
Qed.

Lemma report_independent_of_world_witness :
  no_oom libc_ok /\
  fst (modinfo_do libc_ok cfg_default bad_ko (mkWorld "x" "y" 7 [])) =
    fst (modinfo_do libc_ok cfg_default bad_ko world0) /\
  stdout (snd (modinfo_do libc_ok cfg_default bad_ko (mkWorld "x" "y" 7 []))) =
    stdout (mkWorld "x" "y" 7 [])
      ++ stdout (snd (modinfo_do libc_ok cfg_default bad_ko world0)) /\
  stderr (snd (modinfo_do libc_ok cfg_default bad_ko (mkWorld "x" "y" 7 []))) =
    stderr (mkWorld "x" "y" 7 [])
      ++ stderr (snd (modinfo_do libc_ok cfg_default bad_ko world0)) /\
  stdout (snd (modinfo_do libc_ok cfg_default bad_ko
                 (snd (modinfo_do libc_ok cfg_default bad_ko (mkWorld "x" "y" 7 []))))) =
    stdout (mkWorld "x" "y" 7 [])
      ++ stdout (snd (modinfo_do libc_ok cfg_default bad_ko world0))
      ++ stdout (snd (modinfo_do libc_ok cfg_default bad_ko world0)).
Proof.
  split; [intros n; reflexivity|].
  apply (report_independent_of_world libc_ok cfg_default bad_ko (mkWorld "x" "y" 7 [])).
  intros n. reflexivity.
Defined.

Lemma alias_foreach_stdout (L : libc) (cfg : config) (l : list kmod_module)
    (err : Z) (w : world) :
  no_oom L ->
  stdout (snd (alias_foreach L cfg l err w)) =
    stdout w ++ concat_str (map (module_report L cfg) l).
Proof.
  intros Hmem. revert err w. induction l as [|kmod l IH]; intros err w.
  - cbn. now rewrite str_app_nil_r.
  - cbn [alias_foreach map concat_str]. unfold bind.
    destruct (modinfo_do_frame L cfg kmod w Hmem) as (_ & Hout & _).
    destruct (modinfo_do L cfg kmod w) as [r w1]. cbn [snd] in Hout.
    now rewrite IH, Hout, str_app_assoc.
Qed.

Lemma identifier_stdout (L : libc) (cfg : config) (ctx : kmod_ctx)
    (name : string) (w : world) :
  no_oom L ->
  stdout (snd ((if stat_is_reg ctx name then modinfo_path_do L cfg ctx name
                else modinfo_alias_do L cfg ctx name) w)) =
    stdout w ++ concat_str (map (module_report L cfg) (identifier_modules ctx name)).
Proof.
  intros Hmem. unfold identifier_modules.
  destruct (stat_is_reg ctx name).
  - unfold modinfo_path_do, bind, call. cbv beta iota.
    destruct (kmod_module_new_from_path ctx name) as [r kmod|errno].
    + match goal with
      | |- context [modinfo_do L cfg kmod ?x] =>
          destruct (modinfo_do_frame L cfg kmod x Hmem) as (_ & -> & _)
      end.
      cbn. now rewrite str_app_nil_r.
    + cbn. now rewrite str_app_nil_r.
  - unfold modinfo_alias_do, bind, call. cbv beta iota.
    destruct (kmod_module_new_from_lookup ctx name) as [r l|errno].
    + now rewrite alias_foreach_stdout.
    + cbn. now rewrite str_app_nil_r.
Qed.

Lemma main_loop_stdout (L : libc) (cfg : config) (ctx : kmod_ctx)
    (args : list string) (err : Z) (w : world) :
  no_oom L ->
  stdout (snd (main_loop L cfg ctx args err w)) =
    stdout w ++ concat_str
                  (map (module_report L cfg) (flat_map (identifier_modules ctx) args)).
Proof.
  intros Hmem. revert err w. induction args as [|name args IH]; intros err w.
  - cbn. now rewrite str_app_nil_r.
  - cbn [main_loop flat_map]. unfold bind.
    pose proof (identifier_stdout L cfg ctx name w Hmem) as Hout.
    destruct ((if stat_is_reg ctx name then modinfo_path_do L cfg ctx name
               else modinfo_alias_do L cfg ctx name) w) as [r w1].
    cbn [snd] in Hout.
    now rewrite IH, Hout, map_app, concat_str_app, str_app_assoc.
Qed.

(** X10. With memory at hand, what a run prints is the reports of the
    modules its identifiers resolve to, one after the other in the order of
    the arguments and of each lookup; an identifier that does not resolve
    adds nothing to [stdout]. *)
Theorem run_prints_reports_in_order (L : libc) (cfg : config) (ctx : kmod_ctx)
    (args : list string) (w : world) :
  no_oom L ->
  stdout (snd (main L cfg ctx args w)) =
    stdout w ++ concat_str
                  (map (module_report L cfg) (flat_map (identifier_modules ctx) args)).
Proof.
  intros Hmem. unfold main, bind.
  pose proof (main_loop_stdout L cfg ctx args 0 w Hmem) as Hout.
  destruct (main_loop L cfg ctx args 0 w) as [err w1]. exact Hout.
Qed.

Lemma run_prints_reports_in_order_witness :
  no_oom libc_ok /\
  stdout (snd (main libc_ok cfg_default ctx_x ["nosuch"; "snd-foo"; "bad.ko"] world0)) =
    stdout world0 ++
    concat_str
      (map (module_report libc_ok cfg_default)
         (flat_map (identifier_modules ctx_x) ["nosuch"; "snd-foo"; "bad.ko"])).
Proof.
  split; [intros n; reflexivity|].
  apply (run_prints_reports_in_order libc_ok cfg_default ctx_x
           ["nosuch"; "snd-foo"; "bad.ko"] world0).
  intros n. reflexivity.
Defined.

(** X11. The exit status of a run over two lists of identifiers put
    together is zero exactly when the runs over each list are: a failure
    counts wherever the identifier stands, and no later success undoes it. *)
Theorem exit_status_of_joined_runs (L : libc) (cfg : config) (ctx : kmod_ctx)
    (args1 args2 : list string) (w w1 w2 : world) :
  fst (main L cfg ctx (args1 ++ args2) w) = EXIT_SUCCESS <->
  fst (main L cfg ctx args1 w1) = EXIT_SUCCESS /\
  fst (main L cfg ctx args2 w2) = EXIT_SUCCESS.
Proof.
  destruct (main_status L cfg ctx (args1 ++ args2) w) as [-> _].
  destruct (main_status L cfg ctx args1 w1) as [-> _].
  destruct (main_status L cfg ctx args2 w2) as [-> _].
  rewrite forallb_app.
  destruct (forallb (identifier_ok cfg ctx) args1),
           (forallb (identifier_ok cfg ctx) args2);
    unfold EXIT_SUCCESS, EXIT_FAILURE; cbn; split;
    try (intros [? ?]); try split; congruence.
Qed.

(** X12. An alias whose lookup succeeds with no module at all is not an
    error: nothing is printed, nothing is reported, and the run of that one
    identifier exits with zero. *)
Theorem alias_without_modules (L : libc) (cfg : config) (ctx : kmod_ctx)
    (name : string) (r : N) (w : world) :
  stat_is_reg ctx name = false ->
  kmod_module_new_from_lookup ctx name = kmod_ok r [] ->
  main L cfg ctx [name] w =
    (EXIT_SUCCESS,
     mkWorld (stdout w) (stderr w) (mallocs w)
             (calls w ++ [Ev_new_from_lookup name])).
Proof.
  intros Hreg Hlookup. unfold main, bind. cbn [main_loop].
  unfold bind. rewrite Hreg. unfold modinfo_alias_do, bind, call.
  rewrite Hlookup. cbn [alias_foreach ret].
  destruct (Z.ltb_spec (Z.of_N r) 0) as [Hneg|Hpos]; [lia|].
  cbn [main_loop ret]. reflexivity.
Qed.

Lemma alias_without_modules_witness :
  stat_is_reg (mkCtx (fun _ => false) (fun _ => kmod_err 2) (fun _ => kmod_ok 0 []))
    "nothing" = false /\
  kmod_module_new_from_lookup
    (mkCtx (fun _ => false) (fun _ => kmod_err 2) (fun _ => kmod_ok 0 []))
    "nothing" = kmod_ok 0 [] /\
  main libc_ok cfg_default
    (mkCtx (fun _ => false) (fun _ => kmod_err 2) (fun _ => kmod_ok 0 []))
    ["nothing"] world0 =
    (EXIT_SUCCESS,
     mkWorld (stdout world0) (stderr world0) (mallocs world0)
             (calls world0 ++ [Ev_new_from_lookup "nothing"])).
Proof.
  split; [reflexivity|]. split; [reflexivity|].
  apply (alias_without_modules libc_ok cfg_default
           (mkCtx (fun _ => false) (fun _ => kmod_err 2) (fun _ => kmod_ok 0 []))
           "nothing" 0 world0); reflexivity.
Defined.

(** ** The options *)

Lemma parse_options_app (O : os) (progname : string)
    (pre rest : list (ascii * string)) (o : options) (w : world) :
  parse_options O progname (pre ++ rest) o w =
    match parse_options O progname pre o w with
    | (parsed o', w') => parse_options O progname rest o' w'
    | (returned status, w') => (returned status, w')
    end.
Proof.
  revert o w. induction pre as [|[c optarg] pre IH]; intros o w; [reflexivity|].
  cbn [app parse_options].
  repeat match goal with
         | |- context [if Ascii.eqb c ?b then _ else _] =>
             destruct (Ascii.eqb c b); [apply IH|]
         end.
  destruct (Ascii.eqb c "h"); [reflexivity|].
  destruct (Ascii.eqb c "V"); [reflexivity|].
  destruct (Ascii.eqb c "?"); reflexivity.
Qed.

Lemma is_setting_cases (c : ascii) :
  is_setting c = true ->
  c = "a"%char \/ c = "d"%char \/ c = "l"%char \/ c = "p"%char \/ c = "n"%char \/
  c = "0"%char \/ c = "F"%char \/ c = "k"%char \/ c = "b"%char.
Proof.
  unfold is_setting. cbn [list_ascii_of_string existsb].
  rewrite !orb_true_iff, !Ascii.eqb_eq. intuition discriminate.
Qed.

Lemma or_else_last {B : Type} (x y d : option B) :
  or_else match x with Some b => Some b | None => y end d = or_else x (or_else y d).
Proof. destruct x; reflexivity. Qed.

Lemma parse_options_settings (O : os) (progname : string)
    (answers : list (ascii * string)) (o : options) (w : world) :
  Forall (fun a => is_setting (fst a) = true) answers ->
  parse_options O progname answers o w = (parsed (options_of answers o), w).
Proof.
  intros Hall. revert o.
  induction Hall as [|[c optarg] answers Hc Hall IH]; intros o.
  - destruct o; reflexivity.
  - cbn [fst] in Hc. apply is_setting_cases in Hc.
    unfold options_of. cbn [find_last existsb fst]. rewrite !or_else_last.
    destruct Hc as [->|[->|[->|[->|[->|[->|[->|[->| ->]]]]]]]];
      cbn [parse_options]; cbn -[parse_options]; rewrite IH;
      unfold options_of; cbn;
      try destruct (existsb _ answers); reflexivity.
Qed.

(** X13. While [getopt_long] answers only options that set a variable, the
    option loop writes nothing and the last word counts: the field is the
    one of the last of -a -d -l -p -n -F (none when there is none), the
    kernel version and the root are those of the last -k and the last -b,
    and the separator is NUL as soon as -0 occurs anywhere, newline
    otherwise. *)
Theorem options_last_wins (O : os) (progname : string)
    (answers : list (ascii * string)) (w : world) :
  Forall (fun a => is_setting (fst a) = true) answers ->
  parse_options O progname answers options0 w =
    (parsed
       (mkOptions
          (if existsb (fun a => Ascii.eqb (fst a) "0") answers then NUL else newline)
          (find_last field_setting answers)
          (find_last kversion_setting answers)
          (find_last root_setting answers)),
     w).
Proof.
  intros Hall. rewrite (parse_options_settings O progname answers options0 w Hall).
  unfold options_of, options0. cbn [opt_separator opt_field opt_kversion opt_root].
  destruct (find_last field_setting answers),
           (find_last kversion_setting answers),
           (find_last root_setting answers); reflexivity.
Qed.

Lemma options_last_wins_witness :
  Forall (fun a => is_setting (fst a) = true)
    [("a"%char, EmptyString); ("0"%char, EmptyString);
     ("F"%char, "alias"); ("k"%char, "6.1.0"); ("d"%char, EmptyString)] /\
  parse_options os_x "modinfo"
    [("a"%char, EmptyString); ("0"%char, EmptyString);
     ("F"%char, "alias"); ("k"%char, "6.1.0"); ("d"%char, EmptyString)]
    options0 world0 =
    (parsed
       (mkOptions
          (if existsb (fun a => Ascii.eqb (fst a) "0")
                [("a"%char, EmptyString); ("0"%char, EmptyString);
                 ("F"%char, "alias"); ("k"%char, "6.1.0"); ("d"%char, EmptyString)]
           then NUL else newline)
          (find_last field_setting
             [("a"%char, EmptyString); ("0"%char, EmptyString);
              ("F"%char, "alias"); ("k"%char, "6.1.0"); ("d"%char, EmptyString)])
          (find_last kversion_setting
             [("a"%char, EmptyString); ("0"%char, EmptyString);
              ("F"%char, "alias"); ("k"%char, "6.1.0"); ("d"%char, EmptyString)])
          (find_last root_setting
             [("a"%char, EmptyString); ("0"%char, EmptyString);
              ("F"%char, "alias"); ("k"%char, "6.1.0"); ("d"%char, EmptyString)])),
     world0).
Proof.
  split; [repeat constructor|].
  apply (options_last_wins os_x "modinfo"
           [("a"%char, EmptyString); ("0"%char, EmptyString);
            ("F"%char, "alias"); ("k"%char, "6.1.0"); ("d"%char, EmptyString)]
           world0).
  repeat constructor.
Defined.

Lemma parse_options_stop (O : os) (progname : string) (c : ascii)
    (optarg : string) (post : list (ascii * string)) (o : options) (w : world) :
  is_setting c = false ->
  parse_options O progname ((c, optarg) :: post) o w =
    parse_options O progname [(c, optarg)] options0 w /\
  exists status w',
    parse_options O progname [(c, optarg)] options0 w = (returned status, w') /\
    calls w' = calls w /\
    (status = EXIT_SUCCESS \/ status = EXIT_FAILURE) /\
    (status = EXIT_SUCCESS <-> c = "h"%char \/ c = "V"%char).
Proof.
  unfold is_setting. cbn [list_ascii_of_string existsb].
  rewrite !orb_false_iff.
  intros (Ha & Hd & Hl & Hp & Hn & H0 & HF & Hk & Hb & _).
  cbn [parse_options]. rewrite Ha, Hd, Hl, Hp, Hn, H0, HF, Hk, Hb.
  split; [reflexivity|].
  destruct (Ascii.eqb c "h") eqn:Hh.
  - apply Ascii.eqb_eq in Hh. eexists _, _. split; [reflexivity|].
    cbn. repeat split; auto.
  - destruct (Ascii.eqb c "V") eqn:HV.
    + apply Ascii.eqb_eq in HV. eexists _, _. split; [reflexivity|].
      cbn. repeat split; auto.
    + apply Ascii.eqb_neq in Hh, HV.
      assert (Hno : ~ (c = "h"%char \/ c = "V"%char)) by tauto.
      destruct (Ascii.eqb c "?"); eexists _, _; (split; [reflexivity|]);
        cbn; unfold EXIT_SUCCESS, EXIT_FAILURE;
        (split; [reflexivity|]); (split; [now right|]);
        split; [discriminate | tauto | discriminate | tauto].
Qed.

(** X14. The first answer of [getopt_long] that sets nothing ends the run
    before any module is looked at: what comes after it and the module
    arguments are not read, the options before it have no effect, no
    libkmod call is made, and the exit status is zero for -h and -V only. *)
Theorem option_ends_run (L : libc) (O : os) (progname : string)
    (pre post : list (ascii * string)) (c : ascii) (optarg : string)
    (args : list string) (w : world) :
  Forall (fun a => is_setting (fst a) = true) pre ->
  is_setting c = false ->
  main_program L O progname (pre ++ (c, optarg) :: post) args w =
    main_program L O progname [(c, optarg)] [] w /\
  calls (snd (main_program L O progname (pre ++ (c, optarg) :: post) args w)) =
    calls w /\
  (fst (main_program L O progname (pre ++ (c, optarg) :: post) args w) = EXIT_SUCCESS \/
   fst (main_program L O progname (pre ++ (c, optarg) :: post) args w) = EXIT_FAILURE) /\
  (fst (main_program L O progname (pre ++ (c, optarg) :: post) args w) = EXIT_SUCCESS
   <-> c = "h"%char \/ c = "V"%char).
Proof.
  intros Hpre Hc.
  destruct (parse_options_stop O progname c optarg post (options_of pre options0) w Hc)
    as (Hstop & status & w' & Hone & Hcalls & Hrange & Hzero).
  assert (Hrun : main_program L O progname (pre ++ (c, optarg) :: post) args w =
                 (status, w')).
  { unfold main_program, bind.
    rewrite parse_options_app, (parse_options_settings O progname pre options0 w Hpre).
    now rewrite Hstop, Hone. }
  rewrite Hrun. cbn [fst snd]. repeat split; try assumption; try apply Hzero.
  unfold main_program, bind. now rewrite Hone.
Qed.

Lemma option_ends_run_witness :
  Forall (fun a => is_setting (fst a) = true) [("0"%char, EmptyString)] /\
  is_setting "h" = false /\
  main_program libc_ok os_x "modinfo"
      ([("0"%char, EmptyString)] ++ ("h"%char, EmptyString) :: [("?"%char, EmptyString)])
      ["foo.ko"] world0 =
    main_program libc_ok os_x "modinfo" [("h"%char, EmptyString)] [] world0 /\
  calls (snd (main_program libc_ok os_x "modinfo"
                ([("0"%char, EmptyString)] ++ ("h"%char, EmptyString)
                   :: [("?"%char, EmptyString)])
                ["foo.ko"] world0)) = calls world0 /\
  (fst (main_program libc_ok os_x "modinfo"
          ([("0"%char, EmptyString)] ++ ("h"%char, EmptyString)
             :: [("?"%char, EmptyString)])
          ["foo.ko"] world0) = EXIT_SUCCESS \/
   fst (main_program libc_ok os_x "modinfo"
          ([("0"%char, EmptyString)] ++ ("h"%char, EmptyString)
             :: [("?"%char, EmptyString)])
          ["foo.ko"] world0) = EXIT_FAILURE) /\
  (fst (main_program libc_ok os_x "modinfo"
          ([("0"%char, EmptyString)] ++ ("h"%char, EmptyString)
             :: [("?"%char, EmptyString)])
          ["foo.ko"] world0) = EXIT_SUCCESS
   <-> "h"%char = "h"%char \/ "h"%char = "V"%char).
Proof.
  split; [repeat constructor|]. split; [reflexivity|].
  apply (option_ends_run libc_ok os_x "modinfo"
           [("0"%char, EmptyString)] [("?"%char, EmptyString)]
           "h" EmptyString ["foo.ko"] world0).
  - repeat constructor.
  - reflexivity.
Defined.

(** X15. Options that all set a variable and no module argument: the run
    reports the missing argument on [stderr], prints nothing, makes no
    libkmod call and exits with [EXIT_FAILURE]. *)
Theorem missing_module_argument (L : libc) (O : os) (progname : string)
    (answers : list (ascii * string)) (w : world) :
  Forall (fun a => is_setting (fst a) = true) answers ->
  main_program L O progname answers [] w =
    (EXIT_FAILURE,
     mkWorld (stdout w)
             (stderr w ++ "Error: missing module or filename." ++ str1 newline)
             (mallocs w) (calls w)).
Proof.
  intros Hall. unfold main_program, bind.
  now rewrite (parse_options_settings O progname answers options0 w Hall).
Qed.

Lemma missing_module_argument_witness :
  Forall (fun a => is_setting (fst a) = true) [("p"%char, EmptyString)] /\
  main_program libc_ok os_x "modinfo" [("p"%char, EmptyString)] [] world0 =
    (EXIT_FAILURE,
     mkWorld (stdout world0)
             (stderr world0 ++ "Error: missing module or filename." ++ str1 newline)
             (mallocs world0) (calls world0)).
Proof.
  split; [repeat constructor|].
  apply (missing_module_argument libc_ok os_x "modinfo" [("p"%char, EmptyString)] world0).
  repeat constructor.
Defined.

Lemma length_take_le (n : nat) (s : string) : (String.length (take n s) <= n)%nat.
Proof.
  revert s. induction n as [|n IH]; intros [|a s]; cbn; try lia.
  specialize (IH s). lia.
Qed.

Lemma take_short (n : nat) (s : string) :
  (String.length s <= n)%nat -> take n s = s.
Proof.
  revert s. induction n as [|n IH]; intros [|a s] H; cbn in *; try reflexivity;
    try lia.
  rewrite IH; [reflexivity | lia].
Qed.

(** X16. The directory handed to [kmod_new] never has more than
    [PATH_MAX - 1] bytes: it is the start of [root/lib/modules/version],
    and all of it when that fits, where the version is the one of -k and,
    only without -k, the release that [uname] gives; building it writes
    nothing. *)
Theorem dirname_bounded (L : libc) (O : os) (o : options) (w w' : world)
    (dirname : string) :
  make_dirname L O o w = (inr (Some dirname), w') ->
  w' = w /\
  (String.length dirname <= PATH_MAX O - 1)%nat /\
  exists root version,
    root = match opt_root o with Some r => r | None => EmptyString end /\
    (opt_kversion o = Some version \/
     opt_kversion o = None /\ uname_release O = Some version) /\
    dirname = take (PATH_MAX O - 1) (root ++ "/lib/modules/" ++ version) /\
    ((String.length (root ++ "/lib/modules/" ++ version) <= PATH_MAX O - 1)%nat ->
     dirname = root ++ "/lib/modules/" ++ version).
Proof.
  unfold make_dirname.
  assert (Hgen : forall root version,
             root = match opt_root o with Some r => r | None => EmptyString end ->
             opt_kversion o = Some version \/
             opt_kversion o = None /\ uname_release O = Some version ->
             ret (inr (Some (take (PATH_MAX O - 1) (root ++ "/lib/modules/" ++ version)))) w =
               (@inr Z _ (Some dirname), w') ->
             w' = w /\
             (String.length dirname <= PATH_MAX O - 1)%nat /\
             exists root version,
               root = match opt_root o with Some r => r | None => EmptyString end /\
               (opt_kversion o = Some version \/
                opt_kversion o = None /\ uname_release O = Some version) /\
               dirname = take (PATH_MAX O - 1) (root ++ "/lib/modules/" ++ version) /\
               ((String.length (root ++ "/lib/modules/" ++ version) <= PATH_MAX O - 1)%nat ->
                dirname = root ++ "/lib/modules/" ++ version)).
  { intros root version Hroot Hversion. unfold ret. intros [= <- <-].
    split; [reflexivity|]. split; [apply length_take_le|].
    exists root, version. repeat split; try assumption.
    intros Hfit. now apply take_short. }
  destruct (opt_root o) as [r|] eqn:Hr, (opt_kversion o) as [v|] eqn:Hv.
  - apply Hgen; auto.
  - destruct (uname_release O) as [release|] eqn:Hu.
    + apply Hgen; auto.
    + unfold bind, eprintf, ret. discriminate.
  - apply Hgen; auto.
  - unfold ret. discriminate.
Qed.

Lemma dirname_bounded_witness :
  make_dirname libc_ok os_x (mkOptions newline None None (Some "/mnt")) world0 =
    (inr (Some "/mnt/lib/modules/6.1.0"), world0) /\
  world0 = world0 /\
  (String.length "/mnt/lib/modules/6.1.0" <= PATH_MAX os_x - 1)%nat /\
  exists root version,
    root = match opt_root (mkOptions newline None None (Some "/mnt")) with
           | Some r => r
           | None => EmptyString
           end /\
    (opt_kversion (mkOptions newline None None (Some "/mnt")) = Some version \/
     opt_kversion (mkOptions newline None None (Some "/mnt")) = None /\
     uname_release os_x = Some version) /\
    "/mnt/lib/modules/6.1.0" =
      take (PATH_MAX os_x - 1) (root ++ "/lib/modules/" ++ version) /\
    ((String.length (root ++ "/lib/modules/" ++ version) <= PATH_MAX os_x - 1)%nat ->
     "/mnt/lib/modules/6.1.0" = root ++ "/lib/modules/" ++ version).
Proof.
  split; [reflexivity|].
  apply (dirname_bounded libc_ok os_x (mkOptions newline None None (Some "/mnt"))
           world0 world0 "/mnt/lib/modules/6.1.0").
  reflexivity.
Defined.

(** X17. The shorthand options are the field option under another name:
    -a, -d, -l, -p and -n at any place among the options give the run that
    -F author, -F description, -F license, -F parm and -F filename give at
    that place. *)
Theorem shorthand_is_field_option (L : libc) (O : os) (progname : string)
    (c : ascii) (name optarg : string) (pre post : list (ascii * string))
    (args : list string) (w : world) :
  shorthand c = Some name ->
  main_program L O progname (pre ++ (c, optarg) :: post) args w =
    main_program L O progname (pre ++ ("F"%char, name) :: post) args w.
Proof.
  intros Hc. unfold main_program, bind. rewrite !parse_options_app.
  destruct (parse_options O progname pre options0 w) as [[o|status] w'];
    [|reflexivity].
  assert (Hstep : parse_options O progname ((c, optarg) :: post) o w' =
                  parse_options O progname (("F"%char, name) :: post) o w');
    [|now rewrite Hstep].
  unfold shorthand in Hc.
  repeat match type of Hc with
         | (if Ascii.eqb c ?b then _ else _) = _ =>
             destruct (Ascii.eqb c b) eqn:Heq;
             [apply Ascii.eqb_eq in Heq; subst c; injection Hc as <-; reflexivity|];
             clear Heq
         end.
  discriminate.
Qed.

Lemma shorthand_is_field_option_witness :
  shorthand "p" = Some "parm" /\
  main_program libc_ok os_x "modinfo"
      ([("0"%char, EmptyString)] ++ ("p"%char, EmptyString) :: []) ["bad.ko"] world0 =
    main_program libc_ok os_x "modinfo"
      ([("0"%char, EmptyString)] ++ ("F"%char, "parm") :: []) ["bad.ko"] world0.
Proof.
  split; [reflexivity|].
  apply (shorthand_is_field_option libc_ok os_x "modinfo" "p" "parm" EmptyString
           [("0"%char, EmptyString)] [] ["bad.ko"] world0).
  reflexivity.
Defined.

(** X18. Options that all set a variable, neither -k nor -b among them,
    and at least one module argument: [kmod_new] is asked for the default
    directory (NULL); when it gives no context the run reports that on
    [stderr] and exits with [EXIT_FAILURE] without a libkmod call, and
    otherwise the run is the module loop under the separator and the field
    that the options set. *)
Theorem main_program_runs_modules (L : libc) (O : os) (progname : string)
    (answers : list (ascii * string)) (name : string) (args : list string)
    (w : world) :
  Forall (fun a => is_setting (fst a) = true) answers ->
  find_last kversion_setting answers = None ->
  find_last root_setting answers = None ->
  main_program L O progname answers (name :: args) w =
    match kmod_new O None with
    | Some ctx =>
        main L
          (mkConfig
             (if existsb (fun a => Ascii.eqb (fst a) "0") answers then NUL else newline)
             (find_last field_setting answers))
          ctx (name :: args) w
    | None =>
        (EXIT_FAILURE,
         mkWorld (stdout w)
                 (stderr w ++ "Error: kmod_new() failed!" ++ str1 newline)
                 (mallocs w) (calls w))
    end.
Proof.
  intros Hall Hk Hb. unfold main_program, bind at 1.
  rewrite (parse_options_settings O progname answers options0 w Hall).
  unfold options_of, make_dirname, bind at 1.
  cbn [opt_separator opt_field opt_kversion opt_root options0].
  rewrite Hk, Hb. cbn [or_else ret].
  destruct (kmod_new O None) as [ctx|].
  - now destruct (find_last field_setting answers).
  - reflexivity.
Qed.

Lemma main_program_runs_modules_witness :
  Forall (fun a => is_setting (fst a) = true)
    [("n"%char, EmptyString); ("0"%char, EmptyString)] /\
  find_last kversion_setting [("n"%char, EmptyString); ("0"%char, EmptyString)] = None /\
  find_last root_setting [("n"%char, EmptyString); ("0"%char, EmptyString)] = None /\
  main_program libc_ok os_x "modinfo"
      [("n"%char, EmptyString); ("0"%char, EmptyString)] ("broken.ko" :: ["snd-foo"]) world0 =
    match kmod_new os_x None with
    | Some ctx =>
        main libc_ok
          (mkConfig
             (if existsb (fun a => Ascii.eqb (fst a) "0")
                   [("n"%char, EmptyString); ("0"%char, EmptyString)]
              then NUL else newline)
             (find_last field_setting [("n"%char, EmptyString); ("0"%char, EmptyString)]))
          ctx ("broken.ko" :: ["snd-foo"]) world0
    | None =>
        (EXIT_FAILURE,
         mkWorld (stdout world0)
                 (stderr world0 ++ "Error: kmod_new() failed!" ++ str1 newline)
                 (mallocs world0) (calls world0))
    end.
Proof.
  split; [repeat constructor|]. split; [reflexivity|]. split; [reflexivity|].
  apply (main_program_runs_modules libc_ok os_x "modinfo"
           [("n"%char, EmptyString); ("0"%char, EmptyString)] "broken.ko" ["snd-foo"] world0).
  - repeat constructor.
  - reflexivity.
  - reflexivity.
Defined.

(** A whole run: [-n -0] over a module without metadata and an alias of
    two modules prints the three paths, each ended by NUL, and succeeds. *)
Example filename_run_with_nul :
  main_program libc_ok os_x "modinfo"
      [("n"%char, EmptyString); ("0"%char, EmptyString)] ["broken.ko"; "snd-foo"] world0 =
    (EXIT_SUCCESS,
     mkWorld ("/lib/modules/x/broken.ko" ++ str1 NUL
                ++ "/lib/modules/x/foo.ko" ++ str1 NUL
                ++ "/lib/modules/x/ab.ko" ++ str1 NUL)
             EmptyString 0
             [Ev_new_from_path "broken.ko"; Ev_new_from_lookup "snd-foo"]).
Proof. reflexivity. Qed.

(** ** Identifiers that do not resolve, and the allocator *)

(** X19. An identifier that does not resolve, on its own: nothing is
    printed, [stderr] gets the one line "Module file ... not found." for a
    regular file that is no module and "Module alias ... not found." for
    anything else, the only libkmod call is the resolving one, and the exit
    status is [EXIT_FAILURE]. *)
Theorem unresolved_identifier (L : libc) (cfg : config) (ctx : kmod_ctx)
    (name : string) (w : world) :
  resolves ctx name = false ->
  main L cfg ctx [name] w =
    (EXIT_FAILURE,
     mkWorld (stdout w)
             (stderr w ++ "ERROR: " ++ "Module "
                ++ (if stat_is_reg ctx name then "file " else "alias ")
                ++ name ++ " not found." ++ str1 newline)
             (mallocs w) (calls w ++ [resolve_event ctx name])).
Proof.
  unfold resolves, resolve_event, main, bind. cbn [main_loop]. unfold bind.
  destruct (stat_is_reg ctx name).
  - unfold modinfo_path_do, bind, call, LOG, ret.
    destruct (kmod_module_new_from_path ctx name) as [r kmod|errno];
      [discriminate|]. intros _. reflexivity.
  - unfold modinfo_alias_do, bind, call, LOG, ret.
    destruct (kmod_module_new_from_lookup ctx name) as [r l|errno];
      [discriminate|]. intros _. reflexivity.
Qed.

Lemma unresolved_identifier_witness :
  resolves ctx_x "nosuch" = false /\
  main libc_ok cfg_default ctx_x ["nosuch"] world0 =
    (EXIT_FAILURE,
     mkWorld (stdout world0)
             (stderr world0 ++ "ERROR: " ++ "Module "
                ++ (if stat_is_reg ctx_x "nosuch" then "file " else "alias ")
                ++ "nosuch" ++ " not found." ++ str1 newline)
             (mallocs world0) (calls world0 ++ [resolve_event ctx_x "nosuch"])).
Proof.
  split; [reflexivity|].
  apply (unresolved_identifier libc_ok cfg_default ctx_x "nosuch" world0).
  reflexivity.
Defined.

Lemma length_alter_at (f : struct_param -> struct_param) (k : nat)
    (params : list struct_param) :
  length (alter_at f k params) = length params.
Proof.
  revert k. induction params as [|e params IH]; intros [|k]; cbn;
    try reflexivity.
  now rewrite IH.
Qed.

Lemma add_param_mallocs (L : libc) name namelen param paramlen type typelen
    (params : list struct_param) (w : world) :
  no_oom L ->
  (mallocs (snd (add_param L name namelen param paramlen type typelen params w))
   + length params =
   mallocs w
   + length (snd (fst (add_param L name namelen param paramlen type typelen params w))))%nat.
Proof.
  intros Hmem. unfold add_param.
  destruct (find_param name namelen params) as [i|].
  - cbn. now rewrite length_alter_at.
  - unfold bind, malloc. rewrite Hmem. cbn. lia.
Qed.

Lemma info_foreach_mallocs (L : libc) (cfg : config)
    (kvs : list (string * string)) (params : list struct_param) (w : world) :
  no_oom L ->
  (mallocs (snd (info_foreach L cfg kvs params w)) + length params =
   mallocs w + length (snd (fst (info_foreach L cfg kvs params w))))%nat.
Proof.
  intros Hmem. revert params w.
  induction kvs as [|[key value] kvs IH]; intros params w; [reflexivity|].
  cbn [info_foreach].
  destruct (field cfg) as [f|].
  - destruct (streq f key); cbn [negb]; [|apply IH].
    unfold bind, printf. now rewrite IH.
  - destruct (streq key "parm" || streq key "parmtype").
    + destruct (strchr value colon_char) as [i|].
      * destruct (streq key "param"); unfold bind at 1 3;
          match goal with
          | |- context [add_param ?a ?b ?c ?d ?e ?f ?g ?h ?x] =>
              pose proof (add_param_mallocs a b c d e f g h x Hmem) as Hcount;
              destruct (add_param_upsert a b c d e f g h x Hmem) as [_ Hsome];
              destruct (add_param a b c d e f g h x) as [[[it|] ps] w']
          end; try contradiction; cbn [fst snd] in *;
          specialize (IH ps w'); lia.
      * unfold bind, LOG. now rewrite IH.
    + destruct (Ascii.eqb (separator cfg) NUL); unfold bind, printf; now rewrite IH.
Qed.

(** X20. With memory at hand a default report asks [malloc] for exactly
    one entry per distinct parameter name, however many records name it. *)
Theorem one_allocation_per_parameter (L : libc) (cfg : config)
    (kmod : kmod_module) (r : N) (kvs : list (string * string)) (w : world) :
  field cfg = None ->
  no_oom L ->
  kmod_module_get_info kmod = kmod_ok r kvs ->
  mallocs (snd (modinfo_do L cfg kmod w)) =
    (mallocs w + length (first_seen (record_names kvs)))%nat.
Proof.
  intros Hf Hmem Hinfo.
  unfold modinfo_do. rewrite Hf.
  unfold modinfo_do_info, bind, printf, call. cbv beta iota. rewrite Hinfo.
  match goal with
  | |- context [info_foreach L cfg kvs [] ?x] =>
      pose proof (info_foreach_mallocs L cfg kvs [] x Hmem) as Hcount;
      destruct (info_foreach_default L cfg kvs [] x Hf Hmem (Forall_nil _))
        as (table & n & Hloop & _ & Hnames);
      rewrite Hloop in Hcount |- *
  end.
  cbn [fst snd] in *. rewrite Hf, print_params_lines. unfold ret.
  cbn [fst snd mallocs stdout stderr calls length] in *.
  assert (Hlen : length table = length (first_seen (record_names kvs))).
  { rewrite <- (length_map entry_name), Hnames. apply length_rev. }
  lia.
Qed.

Lemma one_allocation_per_parameter_witness :
  field cfg_default = None /\
  no_oom libc_ok /\
  kmod_module_get_info ab_ko = kmod_ok 3 ab_info /\
  mallocs (snd (modinfo_do libc_ok cfg_default ab_ko world0)) =
    (mallocs world0 + length (first_seen (record_names ab_info)))%nat.
Proof.
  split; [reflexivity|]. split; [intros n; reflexivity|]. split; [reflexivity|].
  apply (one_allocation_per_parameter libc_ok cfg_default ab_ko 3 ab_info world0).
  - reflexivity.
  - intros n. reflexivity.
  - reflexivity.
Defined.
